(** * react-simple-lazy-loader: reducer and saga injectors, lazy routes

    A shallow embedding of [src/index.js] and the properties of its
    injection and ejection policies.

    JavaScript values are modelled by content: an object is an internal
    slot (its class) together with the map of its own properties; what it
    inherits follows from its class.
    The store is a shared mutable object; it lives in the state that every
    operation threads, next to the trace of the calls made to the store's
    [replaceReducer] and [runSaga] and to the tasks' [cancel]. *)

From stdpp Require Import gmap strings list fin_maps.
From Stdlib Require Import ZArith.

Set Warnings "-register-all".

(** ** JavaScript values *)

Module JS.

(** The eventual state of a promise.  Time is not modelled: a promise is
    identified with the way it settles, [Pending] being a promise that never
    does. *)
Inductive settlement (V : Type) : Type :=
| Fulfilled (v : V)
| Rejected (reason : V)
| Pending.
Arguments Fulfilled {V} v.
Arguments Rejected {V} reason.
Arguments Pending {V}.

(** The internal slot of an object.  Functions and tasks are references,
    told apart by their identity; [Task t] is the cancellable handle a
    store's [runSaga] returns. *)
Inductive class (V : Type) : Type :=
| Plain
| Function (f : nat)
| Task (t : nat)
| Error (name : string)
| Array (elems : list V)
| Promise (s : settlement V).
Arguments Plain {V}.
Arguments Function {V} f.
Arguments Task {V} t.
Arguments Error {V} name.
Arguments Array {V} elems.
Arguments Promise {V} s.

Inductive value : Type :=
| VUndefined
| VNull
| VBool (b : bool)
| VNumber (n : Z)
| VString (s : string)
| VObject (c : class value) (props : gmap string value).

Definition object (props : gmap string value) : value := VObject Plain props.
Definition function (f : nat) : value := VObject (Function f) ∅.
Definition task (t : nat) : value := VObject (Task t) ∅.
Definition array (elems : list value) : value := VObject (Array elems) ∅.
Definition promise (s : settlement value) : value := VObject (Promise s) ∅.

(** [new Error(message)], with [error.name] as given. *)
Definition error (name message : string) : value :=
  VObject (Error name) {[ "message" := VString message ]}.

(** The engine's [TypeError]; its message differs between engines and is
    left out. *)
Definition TypeError : value := VObject (Error "TypeError") ∅.

(** ToBoolean.  Numbers are integers here, so [NaN] does not occur. *)
Definition truthy (v : value) : bool :=
  match v with
  | VUndefined | VNull => false
  | VBool b => b
  | VNumber n => negb (n =? 0)%Z
  | VString s => negb (bool_decide (s = ""))
  | VObject _ _ => true
  end.

(** [a === b].  Primitives compare by value, functions and tasks by
    reference.  Objects of the other classes are modelled by content and
    carry no identity; the source never compares two of them: the right
    operand of each of its comparisons is a validated function or a mode
    constant. *)
Definition strict_equal (a b : value) : bool :=
  match a, b with
  | VUndefined, VUndefined => true
  | VNull, VNull => true
  | VBool x, VBool y => bool_decide (x = y)
  | VNumber x, VNumber y => bool_decide (x = y)
  | VString x, VString y => bool_decide (x = y)
  | VObject (Function f) _, VObject (Function g) _ => bool_decide (f = g)
  | VObject (Task t) _, VObject (Task u) _ => bool_decide (t = u)
  | _, _ => false
  end.

Definition is_nullish (v : value) : bool :=
  match v with VUndefined | VNull => true | _ => false end.

Definition is_undefined (v : value) : bool :=
  match v with VUndefined => true | _ => false end.

(** [typeof v === 'function'] *)
Definition typeof_function (v : value) : bool :=
  match v with VObject (Function _) _ => true | _ => false end.

(** The own properties of a value.  Primitives have none in this model:
    their built-in properties ([length] of a string and the like) are not
    modelled; the source reads none of them. *)
Definition props_of (v : value) : gmap string value :=
  match v with VObject _ props => props | _ => ∅ end.

(** *** Prototypes

    Every object is an ordinary one: its prototype is the built-in
    prototype of its class, [Object.prototype] at the end of the chain.
    Objects made without a prototype or with another one are outside the
    model, and so are accessors, read-only properties and the properties
    that exotic objects answer with: the elements and the [length] of an
    array, which the source reaches by iteration only, are kept apart from
    its properties. *)

(** A built-in function: a function reference with its [name]. *)
Definition builtin (id : nat) (name : string) : value :=
  VObject (Function id) {[ "name" := VString name ]}.

Definition Object_prototype_members : list (string * value) :=
  [("constructor", builtin 900 "Object");
   ("__defineGetter__", builtin 901 "__defineGetter__");
   ("__defineSetter__", builtin 902 "__defineSetter__");
   ("hasOwnProperty", builtin 903 "hasOwnProperty");
   ("__lookupGetter__", builtin 904 "__lookupGetter__");
   ("__lookupSetter__", builtin 905 "__lookupSetter__");
   ("isPrototypeOf", builtin 906 "isPrototypeOf");
   ("propertyIsEnumerable", builtin 907 "propertyIsEnumerable");
   ("toString", builtin 908 "toString");
   ("valueOf", builtin 909 "valueOf");
   ("toLocaleString", builtin 910 "toLocaleString")].

(** What the prototype of a class adds to, or puts before, the members of
    [Object.prototype].  An error reads its [name] here.  The [name] and
    [length] that the language gives every function are listed as defaults,
    which a property in [props] overrides: a function declared with a name
    has that name in [props].  The methods of [Array.prototype] and the
    poisoned accessors [arguments] and [caller] of [Function.prototype] are
    not listed. *)
Definition class_members (c : class value) : list (string * value) :=
  match c with
  | Function _ =>
      [("apply", builtin 920 "apply"); ("bind", builtin 921 "bind");
       ("call", builtin 922 "call"); ("toString", builtin 923 "toString");
       ("constructor", builtin 924 "Function");
       ("length", VNumber 0); ("name", VString "")]
  | Error name =>
      [("name", VString name); ("message", VString "");
       ("constructor", builtin 930 "Error"); ("toString", builtin 931 "toString")]
  | Promise _ =>
      [("then", builtin 940 "then"); ("catch", builtin 941 "catch");
       ("finally", builtin 942 "finally"); ("constructor", builtin 943 "Promise")]
  | Task _ => [("cancel", builtin 950 "cancel")]
  | Plain | Array _ => []
  end.

(** The prototype object of a class, which the accessor [__proto__] of
    [Object.prototype] returns. *)
Definition prototype_of (c : class value) : value :=
  match c with
  | Plain => object (list_to_map Object_prototype_members)
  | Function _ => VObject (Function 925) (list_to_map (class_members c))
  | _ => object (list_to_map (class_members c))
  end.

Fixpoint assoc (p : string) (members : list (string * value)) : option value :=
  match members with
  | [] => None
  | (k, v) :: rest => if bool_decide (k = p) then Some v else assoc p rest
  end.

(** The property [p] as an object inherits it. *)
Definition inherited (o : value) (p : string) : option value :=
  match o with
  | VObject c _ =>
      if bool_decide (p = "__proto__") then Some (prototype_of c)
      else assoc p (class_members c ++ Object_prototype_members)
  | _ => None
  end.

(** The property [p] of [o], its own or an inherited one. *)
Definition lookup_prop (o : value) (p : string) : option value :=
  match props_of o !! p with
  | Some v => Some v
  | None => inherited o p
  end.

(** [o[p]] for an [o] that is neither [undefined] nor [null]. *)
Definition get_prop (o : value) (p : string) : value :=
  match lookup_prop o p with
  | Some v => v
  | None => VUndefined
  end.

(** [p in Object(o)] *)
Definition has_prop (o : value) (p : string) : bool :=
  bool_decide (is_Some (lookup_prop o p)).

(** The object after [o[p] = v].  An own property is overwritten, and a
    new one is created over an inherited value.  Under the key [__proto__]
    an object without such a property of its own runs the setter it
    inherits, which records no property: it ignores a primitive [v] and
    makes any other [v] the prototype.  Lookups do not follow a prototype
    set this way; the statements below about what is found under a key
    after an assignment leave this key out. *)
Definition set_prop (o : value) (p : string) (v : value) : value :=
  match o with
  | VObject c props =>
      if bool_decide (p = "__proto__") && negb (bool_decide (is_Some (props !! p)))
      then o
      else VObject c (<[p := v]> props)
  | _ => o
  end.

(** ToPropertyKey on a string.  The source converts validated keys only,
    which are strings; the conversion of other values is not modelled. *)
Definition property_key (v : value) : string :=
  match v with VString s => s | _ => "" end.

(** The elements an array pattern or a spread reads off an iterable:
    arrays and strings are iterable, nothing else in this model is. *)
Definition iterate (v : value) : option (list value) :=
  match v with
  | VObject (Array elems) _ => Some elems
  | VString s => Some ((λ a, VString (String a EmptyString)) <$> String.list_ascii_of_string s)
  | _ => None
  end.

End JS.
Export JS.

(** ** lodash predicates *)

Module Lodash.

Definition isFunction (v : value) : bool := typeof_function v.

Definition isString (v : value) : bool :=
  match v with VString _ => true | _ => false end.

Definition isObject (v : value) : bool :=
  match v with VObject _ _ => true | _ => false end.

Definition isEmpty (v : value) : bool :=
  match v with
  | VString s => bool_decide (s = "")
  | VObject (Array elems) _ => bool_decide (length elems = 0)
  | VObject _ props => bool_decide (size props = 0)
  | _ => true
  end.

(** [conformsTo(object, source)]: every predicate of [source] holds of the
    property of [object] it names, and that property exists. *)
Definition conformsTo (object : value) (source : list (string * (value → bool))) : bool :=
  if is_nullish object then bool_decide (length source = 0)
  else
    forallb (λ '(key, predicate),
      let value := get_prop object key in
      negb ((is_undefined value && negb (has_prop object key))
            || negb (predicate value))) source.

End Lodash.
Export Lodash.

(** ** The store, the calls it receives, and the monad of the operations *)

(** What the outside world sees of a run: the calls made on the store and on
    the tasks it handed out. *)
Inductive event : Type :=
| ReplaceReducer (rootReducer : value)
| RunSaga (saga args : value) (t : nat)
| Cancel (t : nat).

Record state : Type := State {
  store : value;          (* the store object shared by all closures *)
  trace : list event;     (* calls made so far, oldest first *)
  next_task : nat;        (* identity of the task the next runSaga returns *)
}.

(** How a statement completes: normally, or by throwing a value. *)
Inductive completion (A : Type) : Type :=
| Normal (a : A)
| Throw (e : value).
Arguments Normal {A} a.
Arguments Throw {A} e.

Definition M (A : Type) : Type := state → completion A * state.

Definition ret {A} (a : A) : M A := λ st, (Normal a, st).
Definition throw {A} (e : value) : M A := λ st, (Throw e, st).
Definition bind {A B} (m : M A) (k : A → M B) : M B :=
  λ st, match m st with
        | (Normal a, st') => k a st'
        | (Throw e, st') => (Throw e, st')
        end.

Declare Scope js_scope.
Delimit Scope js_scope with js.
Notation "x <- m ;; k" := (bind m (λ x, k))
  (at level 100, m at next level, right associativity) : js_scope.
Notation "m ;; k" := (bind m (λ _, k))
  (at level 100, right associativity) : js_scope.
Local Open Scope js_scope.

(** [try { body } catch (error) { handler }] *)
Definition try_catch {A} (body : M A) (handler : value → M A) : M A :=
  λ st, match body st with
        | (Normal a, st') => (Normal a, st')
        | (Throw e, st') => handler e st'
        end.

(** The environment of a build: the value of
    [process.env.NODE_ENV === 'production'], the behaviour of the
    functions the callers supply ([createReducer], the container loader),
    which return or throw, and, of several promises that reject, the
    position among them of the one that rejects first. *)
Record Env : Type := {
  production : bool;
  call : nat → value → list value → completion value;
  earliest : list value → nat;
}.

(** [o.p]: reading a property of [undefined] or [null] throws. *)
Definition read (o : value) (p : string) : M value :=
  if is_nullish o then throw TypeError else ret (get_prop o p).

(** [Reflect.has(target, key)] *)
Definition Reflect_has (target : value) (key : string) : M bool :=
  match target with
  | VObject _ _ => ret (has_prop target key)
  | _ => throw TypeError
  end.

(** The call of [f] on [this] and [args], for a caller-supplied [f]. *)
Definition Function_apply (env : Env) (f this : value) (args : list value) : M value :=
  match f with
  | VObject (Function id) _ =>
      match call env id this args with
      | Normal v => ret v
      | Throw e => throw e
      end
  | _ => throw TypeError
  end.

(** [f.apply(this, args)]: the method every function inherits calls [f],
    unless [f] has a property [apply] of its own, which is then the one
    called, on [f]. *)
Definition method_apply (env : Env) (f this : value) (args : list value) : M value :=
  match props_of f !! "apply" with
  | Some own => Function_apply env own f [this; array args]
  | None => Function_apply env f this args
  end.

(** [store.member] *)
Definition store_member (member : string) : M value :=
  λ st, read (store st) member st.

(** [store[member][key] = v] in a module, where assignments are strict. *)
Definition store_assign (member key : string) (v : value) : M unit :=
  λ st, match store st with
        | VObject c props =>
            match props !! member with
            | Some (VObject c' entries) =>
                (Normal tt,
                 {| store := VObject c (<[member := set_prop (VObject c' entries) key v]> props);
                    trace := trace st; next_task := next_task st |})
            | _ => (Throw TypeError, st)
            end
        | _ => (Throw TypeError, st)
        end.

Definition emit (e : event) : M unit :=
  λ st, (Normal tt, {| store := store st; trace := trace st ++ [e];
                       next_task := next_task st |}).

(** [store.replaceReducer(rootReducer)] *)
Definition store_replaceReducer (rootReducer : value) : M unit :=
  f <- store_member "replaceReducer";;
  if typeof_function f then emit (ReplaceReducer rootReducer) else throw TypeError.

(** [store.runSaga(saga, args)]: starts a task and returns its handle. *)
Definition store_runSaga (saga args : value) : M value :=
  f <- store_member "runSaga";;
  if typeof_function f then
    λ st, (Normal (task (next_task st)),
           {| store := store st; trace := trace st ++ [RunSaga saga args (next_task st)];
              next_task := S (next_task st) |})
  else throw TypeError.

(** [t.cancel()]: tasks expose [cancel]; other objects are taken not to. *)
Definition cancel (t : value) : M unit :=
  match t with
  | VObject (Task id) _ => emit (Cancel id)
  | _ => throw TypeError
  end.

(** ** The source *)

Definition RESTART_ON_REMOUNT : value := VString "@@saga-injector/restart-on-remount".
Definition DAEMON : value := VString "@@saga-injector/daemon".
Definition ONCE_TILL_UNMOUNT : value := VString "@@saga-injector/once-till-unmount".

Definition allowedModes : list value := [RESTART_ON_REMOUNT; DAEMON; ONCE_TILL_UNMOUNT].

(** [xs.includes(v)] *)
Definition includes (xs : list value) (v : value) : bool :=
  existsb (strict_equal v) xs.

(** [invariant(condition, format)]: throws an [Error] named
    [Invariant Violation] unless the condition holds. *)
Definition ContractViolation (format : string) : value :=
  error "Invariant Violation" format.

Definition invariant (condition : bool) (format : string) : M unit :=
  if condition then ret tt else throw (ContractViolation format).

Definition store_shape : list (string * (value → bool)) :=
  [("dispatch", isFunction); ("subscribe", isFunction); ("getState", isFunction);
   ("replaceReducer", isFunction); ("runSaga", isFunction);
   ("injectedReducers", isObject); ("injectedSagas", isObject)].

Definition checkStore : M unit :=
  λ st, invariant (conformsTo (store st) store_shape)
          "(app/utils...) injectors: Expected a valid redux store" st.

Definition injectReducerFactory (env : Env) (isValid : bool) (createReducer : value)
    (key reducer : value) : M unit :=
  (if negb isValid then checkStore else ret tt);;
  invariant (isString key && negb (isEmpty key) && isFunction reducer)
    "(app/utils...) injectReducer: Expected `reducer` to be a reducer function";;
  let k := property_key key in
  reducers <- store_member "injectedReducers";;
  present <- Reflect_has reducers k;;
  if present && strict_equal (get_prop reducers k) reducer then ret tt
  else
    store_assign "injectedReducers" k reducer;;
    reducers' <- store_member "injectedReducers";;
    rootReducer <- Function_apply env createReducer VUndefined [reducers'];;
    store_replaceReducer rootReducer.

(** The factories return closures over the store; here a closure is the
    function of the operation's arguments into [M]. *)
Record ReducerInjectors : Type := {
  injectReducer : value → value → M unit;
}.

Definition reducerInjectors (env : Env) (reducers : value) : M ReducerInjectors :=
  checkStore;;
  ret {| injectReducer := injectReducerFactory env true reducers |}.

Definition checkKey (key : value) : M unit :=
  invariant (isString key && negb (isEmpty key))
    "(app/utils...) injectSaga: Expected `key` to be a non empty string".

Definition checkDescriptor (descriptor : value) : M unit :=
  let shape :=
    [("saga", isFunction);
     ("mode", λ mode, isString mode && includes allowedModes mode)] in
  invariant (conformsTo descriptor shape)
    "(app/utils...) injectSaga: Expected a valid saga descriptor".

(** [descriptor = {}]: a default parameter replaces [undefined] only. *)
Definition default_parameter (v d : value) : value :=
  if is_undefined v then d else v.

(** The spread [{ ...descriptor }] copies the own properties of the
    descriptor; [injectSaga(name, { saga })] passes no [args]. *)
Definition injectSagaFactory (env : Env) (isValid : bool)
    (key descriptor args : value) : M unit :=
  let descriptor := default_parameter descriptor (object ∅) in
  (if negb isValid then checkStore else ret tt);;
  descriptor_mode <- read descriptor "mode";;
  let newDescriptor :=
    object (<["mode" := if truthy descriptor_mode then descriptor_mode else DAEMON]>
              (props_of descriptor)) in
  let saga := get_prop newDescriptor "saga" in
  let mode := get_prop newDescriptor "mode" in
  checkKey key;;
  checkDescriptor newDescriptor;;
  let k := property_key key in
  sagas <- store_member "injectedSagas";;
  hasSaga <- Reflect_has sagas k;;
  hasSaga <-
    (if negb (production env) then
       let oldDescriptor := get_prop sagas k in
       if hasSaga then
         oldSaga <- read oldDescriptor "saga";;
         if negb (strict_equal oldSaga saga) then
           oldTask <- read oldDescriptor "task";;
           cancel oldTask;;
           ret false
         else ret hasSaga
       else ret hasSaga
     else ret hasSaga);;
  if negb hasSaga
     || (hasSaga && negb (strict_equal mode DAEMON)
                 && negb (strict_equal mode ONCE_TILL_UNMOUNT))
  then
    t <- store_runSaga saga args;;
    store_assign "injectedSagas" k (object (<["task" := t]> (props_of newDescriptor)))
  else ret tt.

Definition ejectSagaFactory (env : Env) (isValid : bool) (key : value) : M unit :=
  (if negb isValid then checkStore else ret tt);;
  checkKey key;;
  let k := property_key key in
  sagas <- store_member "injectedSagas";;
  present <- Reflect_has sagas k;;
  if present then
    let descriptor := get_prop sagas k in
    mode <- read descriptor "mode";;
    if truthy mode && negb (strict_equal mode DAEMON) then
      t <- read descriptor "task";;
      cancel t;;
      if production env then store_assign "injectedSagas" k (VString "done")
      else ret tt
    else ret tt
  else ret tt.

Record SagaInjectors : Type := {
  injectSaga : value → value → value → M unit;
  ejectSaga : value → M unit;
}.

Definition sagaInjectors (env : Env) : M SagaInjectors :=
  checkStore;;
  ret {| injectSaga := injectSagaFactory env true;
         ejectSaga := ejectSagaFactory env true |}.

(** ** Promises *)

(** The settlement of the promise that [Promise.resolve(v)] returns: a
    promise is returned as it is, any other value fulfils.  Thenables that
    are not promises are not modelled. *)
Definition Promise_resolve (v : value) : settlement value :=
  match v with
  | VObject (Promise s) _ => s
  | _ => Fulfilled v
  end.

(** How a list of promises settles as a whole: all fulfilled, some
    rejected (their reasons in the order of the list), or neither yet. *)
Inductive gathered : Type :=
| AllFulfilled (values : list value)
| SomeRejected (reasons : list value)
| NotSettled.

Fixpoint gather (promises : list value) : gathered :=
  match promises with
  | [] => AllFulfilled []
  | p :: rest =>
      match Promise_resolve p, gather rest with
      | Rejected e, SomeRejected reasons => SomeRejected (e :: reasons)
      | Rejected e, _ => SomeRejected [e]
      | _, SomeRejected reasons => SomeRejected reasons
      | Pending, _ => NotSettled
      | _, NotSettled => NotSettled
      | Fulfilled v, AllFulfilled vs => AllFulfilled (v :: vs)
      end
  end.

(** [Promise.all(promises)]: fulfils with the array of all the values once
    every promise has fulfilled, and rejects as soon as one rejects, with
    the reason of the promise that rejects first; which one that is, the
    environment tells. *)
Definition Promise_all (env : Env) (promises : list value) : settlement value :=
  match gather promises with
  | AllFulfilled values => Fulfilled (array values)
  | SomeRejected reasons =>
      Rejected (nth (earliest env reasons `mod` length reasons) reasons VUndefined)
  | NotSettled => Pending
  end.

(** The promise a reaction returns: resolved with the value the callback
    returns, rejected with the value it throws.  The callback runs on the
    state of the moment the promise settles. *)
Definition react (callback : M value) : M (settlement value) :=
  λ st, match callback st with
        | (Normal r, st') => (Normal (Promise_resolve r), st')
        | (Throw e, st') => (Normal (Rejected e), st')
        end.

(** [p.then(onFulfilled)] *)
Definition Promise_then (p : settlement value) (onFulfilled : value → M value)
    : M (settlement value) :=
  match p with
  | Fulfilled v => react (onFulfilled v)
  | Rejected e => ret (Rejected e)
  | Pending => ret Pending
  end.

(** [p.catch(onRejected)] *)
Definition Promise_catch (p : settlement value) (onRejected : value → M value)
    : M (settlement value) :=
  match p with
  | Fulfilled v => ret (Fulfilled v)
  | Rejected e => react (onRejected e)
  | Pending => ret Pending
  end.

(** [xs.forEach(f)] *)
Fixpoint forEach {A} (xs : list A) (f : A → M unit) : M unit :=
  match xs with
  | [] => ret tt
  | x :: rest => f x;; forEach rest f
  end.

(** [xs.map(f)] *)
Fixpoint map_ {A B} (xs : list A) (f : A → M B) : M (list B) :=
  match xs with
  | [] => ret []
  | x :: rest => y <- f x;; ys <- map_ rest f;; ret (y :: ys)
  end.

(** [chunk.default || chunk] *)
Definition default_or_self (chunk : value) : M value :=
  d <- read chunk "default";;
  ret (if truthy d then d else chunk).

(** ** The lazy route *)

Definition applyPromise (env : Env)
    (injectReducer : value → value → M unit)
    (injectSaga : value → value → value → M unit)
    (container require : value) : M value :=
  let containerProvider := container in
  match iterate (if truthy require then require else object ∅) with
  | None => throw TypeError
  | Some elems =>
      let containerPromise := hd VUndefined elems in
      let chunksPromise := tl elems in
      let promises := containerPromise :: chunksPromise in
      p <- Promise_then (Promise_all env promises) (λ results,
             let results := default [] (iterate results) in
             let promiseContainer := hd VUndefined results in
             let chunks := tl results in
             forEach chunks (λ chunk,
               exports <- default_or_self chunk;;
               name <- read exports "name";;
               reducer <- read exports "reducer";;
               saga <- read exports "saga";;
               (if truthy reducer then injectReducer name reducer else ret tt);;
               (if truthy saga
                then injectSaga name (object {[ "saga" := saga ]}) VUndefined
                else ret tt));;
             try_catch
               (this <- read promiseContainer "default";;
                args <- map_ chunks default_or_self;;
                method_apply env containerProvider this args)
               (λ error, ret error));;
      p' <- Promise_catch p (λ error, ret error);;
      ret (promise p')
  end.

Record RouteDescriptor : Type := {
  path : value;
  pageName : value;
  exact : value;
  Component : M value;
  childRoutes : value;
  data : value;
  props : gmap string value;
}.

Definition route_fields : list string :=
  ["path"; "pageName"; "exact"; "require"; "container"; "childRoutes"; "data"].

(** The route descriptor is the object
    [{ path, pageName, exact, Component() {...}, childRoutes, data, ...props }]:
    the rest properties are spread last, so a property [Component] of the
    configuration replaces the method.  The field [Component] of the record
    is the call [route.Component()]; [props] holds the rest properties.  A
    container that is neither a function nor a promise is taken to have no
    [then] to call. *)
Definition routeProvider (env : Env)
    (injectReducer : value → value → M unit)
    (injectSaga : value → value → value → M unit)
    (applyPromise : (value → value → M unit) → (value → value → value → M unit) →
                    value → value → M value)
    (config : value) : M RouteDescriptor :=
  path <- read config "path";;
  let pageName := get_prop config "pageName" in
  let exact := get_prop config "exact" in
  let require := get_prop config "require" in
  let container := get_prop config "container" in
  let childRoutes := get_prop config "childRoutes" in
  let data := get_prop config "data" in
  let props := foldr delete (props_of config) route_fields in
  let route :=
    object (<["path" := path]> (<["pageName" := pageName]> (<["exact" := exact]>
             (<["childRoutes" := childRoutes]> (<["data" := data]> props))))) in
  ret {|
    path := path;
    pageName := pageName;
    exact := exact;
    Component :=
      match props !! "Component" with
      | Some own => Function_apply env own route []
      | None =>
          if typeof_function container then
            applyPromise injectReducer injectSaga container require
          else
            match container with
            | VObject (Promise s) _ =>
                p <- Promise_then s (λ defaultContainer, read defaultContainer "default");;
                p' <- Promise_catch p (λ error, ret error);;
                ret (promise p')
            | _ => throw TypeError
            end
      end;
    childRoutes := childRoutes;
    data := data;
    props := props;
  |}.

Definition simpleLazyLoadedRoute (env : Env) (reducers : value)
    : M (value → M RouteDescriptor) :=
  r <- reducerInjectors env reducers;;
  s <- sagaInjectors env;;
  ret (routeProvider env (injectReducer r) (injectSaga s) (applyPromise env)).

(** ** Observing a state *)

(** [store.injectedReducers] and [store.injectedSagas] as maps. *)
Definition injectedReducers (st : state) : gmap string value :=
  props_of (get_prop (store st) "injectedReducers").

Definition injectedSagas (st : state) : gmap string value :=
  props_of (get_prop (store st) "injectedSagas").

(** The store has the seven members [checkStore] asks for. *)
Definition valid_store (st : state) : Prop :=
  conformsTo (store st) store_shape = true.

Definition is_ReplaceReducer (e : event) : bool :=
  match e with ReplaceReducer _ => true | _ => false end.

Definition is_RunSaga (e : event) : bool :=
  match e with RunSaga _ _ _ => true | _ => false end.

Definition is_Cancel (e : event) : bool :=
  match e with Cancel _ => true | _ => false end.

Definition is_Cancel_of (t : nat) (e : event) : bool :=
  match e with Cancel u => bool_decide (t = u) | _ => false end.

(** The number of calls of one kind in a trace. *)
Definition calls (kind : event → bool) (tr : list event) : nat :=
  length (List.filter kind tr).

(** The state after [store[member][key] = v]. *)
Definition assigned (member key : string) (v : value) (st : state) : state :=
  {| store := VObject (match store st with VObject c _ => c | _ => Plain end)
                (<[member := set_prop (get_prop (store st) member) key v]>
                   (props_of (store st)));
     trace := trace st; next_task := next_task st |}.

(** The entries that [Reflect.has] and a read find under a key of the two
    mappings: an own property, or one the mapping inherits. *)
Definition reducer_under (st : state) (key : string) : option value :=
  lookup_prop (get_prop (store st) "injectedReducers") key.

Definition saga_under (st : state) (key : string) : option value :=
  lookup_prop (get_prop (store st) "injectedSagas") key.

(** The state after a call has been recorded. *)
Definition logged (e : event) (st : state) : state :=
  {| store := store st; trace := trace st ++ [e]; next_task := next_task st |}.

(** The state after [store.runSaga(saga, args)]. *)
Definition started (saga args : value) (st : state) : state :=
  {| store := store st; trace := trace st ++ [RunSaga saga args (next_task st)];
     next_task := S (next_task st) |}.

(** [Reflect.has(store.injectedReducers, key)
     && store.injectedReducers[key] === R] *)
Definition reducer_at (st : state) (key : string) (R : value) : bool :=
  match reducer_under st key with
  | Some R' => strict_equal R' R
  | None => false
  end.

(** The mode [injectSaga] works with: [descriptor.mode || DAEMON]. *)
Definition descriptor_mode (d : value) : value :=
  let mode := get_prop d "mode" in
  if truthy mode then mode else DAEMON.

(** What [checkDescriptor] asks of the descriptor with its mode filled in. *)
Definition valid_descriptor (d : value) : bool :=
  isFunction (get_prop d "saga")
  && (isString (descriptor_mode d) && includes allowedModes (descriptor_mode d)).

(** The entry [injectSaga] records for descriptor [d] once task [t] runs:
    [{ ...descriptor, mode, task }]. *)
Definition saga_entry (d : value) (t : nat) : value :=
  object (<["task" := task t]> (<["mode" := descriptor_mode d]> (props_of d))).

(** [mode !== DAEMON && mode !== ONCE_TILL_UNMOUNT] *)
Definition restarts (mode : value) : bool :=
  negb (strict_equal mode DAEMON) && negb (strict_equal mode ONCE_TILL_UNMOUNT).

(** The state after [injectSaga] has started the saga of [d] under [key]. *)
Definition injected (key : string) (d args : value) (st : state) : state :=
  assigned "injectedSagas" key (saga_entry d (next_task st))
    (started (get_prop d "saga") args st).


(** [n] calls of [ejectSaga(key)] in a row. *)
Fixpoint eject_times (env : Env) (isValid : bool) (key : value) (n : nat) : M unit :=
  match n with
  | 0 => ret tt
  | S n' => ejectSagaFactory env isValid key;; eject_times env isValid key n'
  end.

(** ** Sample data *)

Module Sample.

(** Caller-supplied functions that return the array of their arguments. *)
Definition echo (f : nat) (this : value) (args : list value) : completion value :=
  Normal (array args).

Definition production_build : Env :=
  {| production := true; call := echo; earliest := λ _, 0 |}.
Definition development_build : Env :=
  {| production := false; call := echo; earliest := λ _, 0 |}.

Definition fresh_store : value :=
  object (list_to_map
    [("dispatch", function 1); ("subscribe", function 2); ("getState", function 3);
     ("replaceReducer", function 4); ("runSaga", function 5);
     ("injectedReducers", object ∅); ("injectedSagas", object ∅)]).

(** A store into which nothing has been injected yet. *)
Definition fresh : state := {| store := fresh_store; trace := []; next_task := 0 |}.

Definition createReducer : value := function 10.
Definition usersReducer : value := function 11.
Definition profileReducer : value := function 12.
Definition watchUsers : value := function 20.
Definition watchUsers' : value := function 21.
Definition loader : value := function 30.

Definition descriptor (saga mode : value) : value :=
  object {[ "saga" := saga; "mode" := mode ]}.

(** The fresh store once [watchUsers] runs under the key [users]. *)
Definition running (mode : value) : state :=
  assigned "injectedSagas" "users"
    (object {[ "saga" := watchUsers; "mode" := mode; "task" := task 0 ]})
    {| store := fresh_store; trace := [RunSaga watchUsers VUndefined 0]; next_task := 1 |}.

(** A store object without [runSaga]. *)
Definition no_runSaga : state :=
  {| store := object (delete "runSaga" (props_of fresh_store));
     trace := []; next_task := 0 |}.

Definition load_failed : value := error "Error" "load failed".


Definition profile_route : value :=
  object {[ "path" := VString "/profile"; "container" := loader;
            "require" := array [promise (Fulfilled (object {[ "default" := function 31 ]}));
                                promise (Fulfilled (object {[ "default" :=
                                  object {[ "name" := VString "profile";
                                            "reducer" := profileReducer ]} ]}))] ]}.

Definition bare_route : value :=
  object {[ "path" := VString "/bare"; "container" := loader ]}.

End Sample.

(** ** The start policy in the words of the specification *)



Definition is_task (v : value) : bool :=
  match v with VObject (Task _) _ => true | _ => false end.


(** A computation that invokes no [cancel], however it completes. *)
Definition cancels_nothing {A} (m : M A) : Prop :=
  ∀ st c st', m st = (c, st') →
    calls is_Cancel (trace st') = calls is_Cancel (trace st).

(** ** Dependency resolution in the words of the specification *)

Definition is_promise (v : value) : bool :=
  match v with VObject (Promise _) _ => true | _ => false end.

(** The default export of a resolved chunk, or the chunk itself. *)
Definition chunk_exports (chunk : value) : value :=
  let d := get_prop chunk "default" in
  if truthy d then d else chunk.

(** For one chunk: inject the reducer under [name] when present, and the
    saga under [name] when present.  Nothing can be extracted from a chunk
    that is [undefined] or [null]: reading it throws. *)
Definition inject_chunk
    (injectReducer : value → value → M unit)
    (injectSaga : value → value → value → M unit) (chunk : value) : M unit :=
  if is_nullish chunk then throw TypeError else
  let exports := chunk_exports chunk in
  let name := get_prop exports "name" in
  let reducer := get_prop exports "reducer" in
  let saga := get_prop exports "saga" in
  (if truthy reducer then injectReducer name reducer else ret tt);;
  (if truthy saga then injectSaga name (object {[ "saga" := saga ]}) VUndefined
   else ret tt).

(** The chunks one after the other, in the order of their declaration; a
    failure stops the loop and leaves the earlier chunks injected. *)
Fixpoint inject_in_order
    (injectReducer : value → value → M unit)
    (injectSaga : value → value → value → M unit) (chunks : list value) : M unit :=
  match chunks with
  | [] => ret tt
  | chunk :: rest =>
      inject_chunk injectReducer injectSaga chunk;;
      inject_in_order injectReducer injectSaga rest
  end.

(** The container factory applied to the container module's default export
    and the chunks' exports; an error thrown on the way is the result. *)
Definition constructed (env : Env) (container promiseContainer : value)
    (chunks : list value) : value :=
  if is_nullish promiseContainer then TypeError
  else
    let this := get_prop promiseContainer "default" in
    let args := chunk_exports <$> chunks in
    let '(callee, this, args) :=
      match props_of container !! "apply" with
      | Some own => (own, container, [this; array args])
      | None => (container, this, args)
      end in
    match callee with
    | VObject (Function f) _ =>
        match call env f this args with
        | Normal v => v
        | Throw e => e
        end
    | _ => TypeError
    end.

(** The settlement of [p.catch(error => error)]. *)
Definition caught (p : settlement value) : settlement value :=
  match p with
  | Rejected e => Promise_resolve e
  | _ => p
  end.

(** A chunk module whose default export names a reducer:
    [{ default: { name, reducer } }]. *)
Definition reducer_chunk (name : string) (reducer : value) : value :=
  object {[ "default" := object {[ "name" := VString name; "reducer" := reducer ]} ]}.




(** ** Further observations *)

(** The seven members of a store, each of the kind [checkStore] asks for. *)
Definition members_conform (s : value) : bool :=
  isFunction (get_prop s "dispatch") && isFunction (get_prop s "subscribe")
  && isFunction (get_prop s "getState") && isFunction (get_prop s "replaceReducer")
  && isFunction (get_prop s "runSaga")
  && isObject (get_prop s "injectedReducers") && isObject (get_prop s "injectedSagas").

(** What a call leaves alone: the reducers, and the sagas under other keys. *)
Definition same_reducers (st st' : state) : Prop :=
  injectedReducers st' = injectedReducers st.

Definition same_sagas_but (key : value) (st st' : state) : Prop :=
  ∀ k, VString k ≠ key → injectedSagas st' !! k = injectedSagas st !! k.

Definition same_reducers_but (key : value) (st st' : state) : Prop :=
  ∀ k, VString k ≠ key → injectedReducers st' !! k = injectedReducers st !! k.




(** The names the source reads off stores, descriptors, entries, chunks and
    route configurations; no built-in prototype has a member of such a
    name. *)
Definition read_names : list string :=
  ["dispatch"; "subscribe"; "getState"; "replaceReducer"; "runSaga";
   "injectedReducers"; "injectedSagas"; "saga"; "mode"; "task"; "default";
   "reducer"; "path"; "pageName"; "exact"; "require"; "container";
   "childRoutes"; "data"; "Component"].

(** What an object inherits is no saga descriptor: it is a value with no
    [mode], [saga] or [task]. *)
Definition no_descriptor (v : value) : Prop :=
  is_nullish v = false
  ∧ get_prop v "mode" = VUndefined
  ∧ get_prop v "saga" = VUndefined
  ∧ get_prop v "task" = VUndefined.

(** ** Further sample data *)

Module More.


(** The fresh store with the sentinel a production build leaves. *)
Definition ejected : state :=
  assigned "injectedSagas" "users" (VString "done") Sample.fresh.

Definition container_module : value := object {[ "default" := function 31 ]}.

(** A chunk with a reducer and a saga, and one whose reducer has no name. *)
Definition users_chunk : value :=
  object {[ "default" := object {[ "name" := VString "users";
                                   "reducer" := Sample.usersReducer;
                                   "saga" := Sample.watchUsers ]} ]}.

Definition nameless_chunk : value :=
  object {[ "default" := object {[ "reducer" := Sample.usersReducer ]} ]}.

Definition route (require : list value) : value :=
  object {[ "path" := VString "/users"; "exact" := VBool true;
            "container" := Sample.loader; "require" := array require;
            "title" := VString "Users" ]}.

(** The constructor every plain object inherits: [Object]. *)
Definition Object_constructor : value := builtin 900 "Object".

(** A route configuration that brings a [Component] of its own. *)
Definition own_Component : value := function 40.

Definition with_Component (config : value) : value :=
  object (<["Component" := own_Component]> (props_of config)).

(** Chunks whose default export is a function that carries a reducer: one
    declared under the name [profile], and an anonymous one. *)
Definition named_export : value :=
  object {[ "default" := VObject (Function 50)
                           {[ "name" := VString "profile";
                              "reducer" := Sample.profileReducer ]} ]}.



End More.

(** ** Basic facts about valid stores and the primitive steps *)

Lemma bool_decide_is_Some {A} (o : option A) :
  bool_decide (is_Some o) = match o with Some _ => true | None => false end.
Proof.
  destruct o; [by apply bool_decide_eq_true_2|].
  apply bool_decide_eq_false_2. by intros [? ?].
Qed.

Lemma calls_app kind (tr1 tr2 : list event) :
  calls kind (tr1 ++ tr2) = calls kind tr1 + calls kind tr2.
Proof. unfold calls. by rewrite List.filter_app, length_app. Qed.


(** *** Own and inherited properties *)

Lemma assoc_Forall (P : value → Prop) (members : list (string * value))
    (p : string) (v : value) :
  Forall (λ member, P member.2) members → assoc p members = Some v → P v.
Proof.
  induction 1 as [|[k w] rest Hw _ IH]; [done|]. cbn [assoc].
  case_bool_decide; [|done]. by intros [= <-].
Qed.

Lemma inherited_read_name (o : value) (p : string) :
  p ∈ read_names → inherited o p = None.
Proof.
  intros Hp. destruct o as [| | | | |c props]; try done.
  unfold read_names in Hp. unfold inherited.
  repeat (apply elem_of_cons in Hp as [-> | Hp]; [by destruct c|]).
  by apply elem_of_nil in Hp.
Qed.

Lemma lookup_prop_read_name (o : value) (p : string) :
  p ∈ read_names → lookup_prop o p = props_of o !! p.
Proof.
  intros Hp. unfold lookup_prop. rewrite inherited_read_name by done.
  by destruct (props_of o !! p).
Qed.

Lemma get_prop_read_name (o : value) (p : string) :
  p ∈ read_names →
  get_prop o p = match props_of o !! p with Some v => v | None => VUndefined end.
Proof. intros Hp. unfold get_prop. by rewrite lookup_prop_read_name. Qed.

Lemma lookup_prop_own (o : value) (p : string) (v : value) :
  props_of o !! p = Some v → lookup_prop o p = Some v.
Proof. unfold lookup_prop. by intros ->. Qed.

Lemma inherited_no_descriptor (o : value) (p : string) (v : value) :
  inherited o p = Some v → no_descriptor v.
Proof.
  destruct o as [| | | | |c props]; try done. unfold inherited.
  case_bool_decide.
  - intros [= <-]. destruct c; by repeat split.
  - apply (assoc_Forall no_descriptor). apply Forall_app. split.
    + destruct c; cbn [class_members]; repeat constructor.
    + unfold Object_prototype_members. repeat constructor.
Qed.

Lemma lookup_prop_cases (o : value) (p : string) (v : value) :
  lookup_prop o p = Some v →
  props_of o !! p = Some v ∨ (props_of o !! p = None ∧ no_descriptor v).
Proof.
  unfold lookup_prop. destruct (props_of o !! p) as [w|]; [by left|].
  intros Hi. right. split; [done|]. by eapply inherited_no_descriptor.
Qed.

(** *** Assignment *)

Lemma isObject_set_prop (o : value) (p : string) (v : value) :
  isObject (set_prop o p v) = isObject o.
Proof. destruct o as [| | | | |c props]; try done. cbn. by case_match. Qed.

Lemma props_of_set_prop_other (o : value) (p p' : string) (v : value) :
  p' ≠ p → props_of (set_prop o p v) !! p' = props_of o !! p'.
Proof.
  intros Hne. destruct o as [| | | | |c props]; try done. cbn [set_prop].
  case_match; [done|]. cbn [props_of]. by apply lookup_insert_ne.
Qed.

(** An assignment records a property unless it runs the setter of
    [__proto__]. *)
Lemma props_of_set_prop (o : value) (p : string) (v : value) :
  isObject o = true → p ≠ "__proto__" ∨ is_Some (props_of o !! p) →
  props_of (set_prop o p v) = <[p := v]> (props_of o).
Proof.
  destruct o as [| | | | |c props]; try done. intros _ Hp. cbn [set_prop props_of].
  destruct Hp as [Hp | Hp].
  - by rewrite bool_decide_eq_false_2.
  - cbn [props_of] in Hp. rewrite (bool_decide_eq_true_2 (is_Some _)) by done.
    by rewrite andb_false_r.
Qed.





(** *** Valid stores *)

(** What [conformsTo] asks of one property. *)
Lemma conforms_member (o : value) (key : string) (predicate : value → bool) :
  negb ((is_undefined (get_prop o key) && negb (has_prop o key))
        || negb (predicate (get_prop o key))) = true →
  predicate (get_prop o key) = true.
Proof. destruct (predicate _); [done|]. by rewrite orb_true_r. Qed.

Lemma valid_store_members (st : state) :
  valid_store st →
  is_nullish (store st) = false
  ∧ typeof_function (get_prop (store st) "replaceReducer") = true
  ∧ typeof_function (get_prop (store st) "runSaga") = true
  ∧ isObject (get_prop (store st) "injectedReducers") = true
  ∧ isObject (get_prop (store st) "injectedSagas") = true.
Proof.
  unfold valid_store, conformsTo.
  destruct (is_nullish (store st)) eqn:Hn; [done|].
  unfold store_shape. cbn [forallb].
  rewrite !andb_true_iff.
  intros (_ & _ & _ & Hr & Hs & Hir & His & _).
  repeat split; by eapply conforms_member.
Qed.

Lemma get_prop_nullish (v : value) (p : string) :
  is_nullish v = true → get_prop v p = VUndefined.
Proof.
  destruct v; try done; intros _; unfold get_prop, lookup_prop; cbn [props_of inherited];
    by rewrite lookup_empty.
Qed.

Lemma get_prop_primitive (v : value) (p : string) :
  isObject v = false → get_prop v p = VUndefined.
Proof.
  destruct v; try done; intros _; unfold get_prop, lookup_prop; cbn [props_of inherited];
    by rewrite lookup_empty.
Qed.

Lemma valid_store_object (st : state) : valid_store st → isObject (store st) = true.
Proof.
  intros (_ & Hr & _)%valid_store_members.
  destruct (isObject (store st)) eqn:Ho; [done|].
  by rewrite get_prop_primitive in Hr.
Qed.

Lemma checkStore_valid (st : state) :
  valid_store st → checkStore st = (Normal tt, st).
Proof. unfold valid_store, checkStore. by intros ->. Qed.

Lemma checkStore_invalid (st : state) :
  ¬ valid_store st →
  checkStore st
  = (Throw (ContractViolation "(app/utils...) injectors: Expected a valid redux store"), st).
Proof. unfold valid_store, checkStore. by destruct (conformsTo _ _). Qed.

Lemma store_member_valid (member : string) (st : state) :
  valid_store st → store_member member st = (Normal (get_prop (store st) member), st).
Proof.
  intros (Hn & _)%valid_store_members. unfold store_member, read. by rewrite Hn.
Qed.

Lemma Reflect_has_object (o : value) (key : string) (st : state) :
  isObject o = true →
  Reflect_has o key st
  = (Normal (match lookup_prop o key with Some _ => true | None => false end), st).
Proof.
  destruct o; try done. intros _. unfold Reflect_has, ret, has_prop.
  by rewrite bool_decide_is_Some.
Qed.

Lemma store_assign_object (member key : string) (v : value) (st : state) :
  member ∈ read_names →
  isObject (store st) = true →
  isObject (get_prop (store st) member) = true →
  store_assign member key v st = (Normal tt, assigned member key v st).
Proof.
  intros Hm. unfold store_assign, assigned. rewrite get_prop_read_name by done.
  destruct (store st) as [| | | | |c props]; try done. intros _. cbn [props_of].
  destruct (props !! member) as [[| | | | |c' entries]|]; done.
Qed.

Lemma store_replaceReducer_valid (rootReducer : value) (st : state) :
  valid_store st →
  store_replaceReducer rootReducer st = (Normal tt, logged (ReplaceReducer rootReducer) st).
Proof.
  intros Hv. unfold store_replaceReducer, bind. rewrite store_member_valid by done.
  apply valid_store_members in Hv as (_ & -> & _). done.
Qed.

Lemma store_runSaga_valid (saga args : value) (st : state) :
  valid_store st →
  store_runSaga saga args st = (Normal (task (next_task st)), started saga args st).
Proof.
  intros Hv. unfold store_runSaga, bind. rewrite store_member_valid by done.
  apply valid_store_members in Hv as (_ & _ & -> & _). done.
Qed.

(** Assigning into one of the two mappings keeps the store valid and
    changes that mapping only. *)
Lemma get_prop_assigned (member key other : string) (v : value) (st : state) :
  isObject (store st) = true →
  get_prop (store (assigned member key v st)) other
  = if decide (member = other)
    then set_prop (get_prop (store st) member) key v
    else get_prop (store st) other.
Proof.
  intros Ho. destruct (store st) as [| | | | |c props] eqn:Hs; try done.
  unfold assigned, get_prop, lookup_prop. rewrite Hs. cbn [store props_of inherited].
  rewrite lookup_insert. by case_decide.
Qed.

Lemma has_prop_assigned (member key other : string) (v : value) (st : state) :
  isObject (store st) = true →
  has_prop (store (assigned member key v st)) other
  = if decide (member = other) then true else has_prop (store st) other.
Proof.
  intros Ho. destruct (store st) as [| | | | |c props] eqn:Hs; try done.
  unfold assigned, has_prop, lookup_prop. rewrite Hs. cbn [store props_of inherited].
  rewrite lookup_insert. case_decide; [|done]. by apply bool_decide_eq_true_2.
Qed.

Lemma valid_store_assigned (member key : string) (v : value) (st : state) :
  member = "injectedReducers" ∨ member = "injectedSagas" →
  valid_store st → valid_store (assigned member key v st).
Proof.
  intros Hm Hv. pose proof (valid_store_object _ Hv) as Ho.
  pose proof (valid_store_members _ Hv) as (_ & _ & _ & Hir & His).
  unfold valid_store, conformsTo in *.
  destruct (is_nullish (store st)) eqn:Hn; [done|].
  change (is_nullish (store (assigned member key v st))) with false. cbv iota.
  unfold store_shape in *. cbn [forallb] in *.
  rewrite !get_prop_assigned by exact Ho. rewrite !has_prop_assigned by exact Ho.
  destruct Hm as [-> | ->]; repeat (case_decide; [discriminate|]);
    repeat (case_decide; [|congruence]); repeat (case_decide; [discriminate|]).
  - revert Hv. rewrite !andb_true_iff. intros (? & ? & ? & ? & ? & ? & ? & ?).
    repeat split; try done. rewrite isObject_set_prop, Hir. cbn [negb]. by rewrite andb_false_r.
  - revert Hv. rewrite !andb_true_iff. intros (? & ? & ? & ? & ? & ? & ? & ?).
    repeat split; try done. rewrite isObject_set_prop, His. cbn [negb]. by rewrite andb_false_r.
Qed.

Lemma injectedSagas_assigned (key : string) (v : value) (st : state) :
  valid_store st →
  key ≠ "__proto__" ∨ is_Some (injectedSagas st !! key) →
  injectedSagas (assigned "injectedSagas" key v st) = <[key := v]> (injectedSagas st).
Proof.
  intros Hv Hk. pose proof (valid_store_members _ Hv) as (_ & _ & _ & _ & His).
  unfold injectedSagas. rewrite get_prop_assigned by (by apply valid_store_object).
  rewrite decide_True by done. by apply props_of_set_prop.
Qed.


Lemma injectedSagas_assigned_other (key k : string) (v : value) (st : state) :
  valid_store st → k ≠ key →
  injectedSagas (assigned "injectedSagas" key v st) !! k = injectedSagas st !! k.
Proof.
  intros Hv Hk. unfold injectedSagas.
  rewrite get_prop_assigned by (by apply valid_store_object).
  rewrite decide_True by done. by apply props_of_set_prop_other.
Qed.

Lemma injectedReducers_assigned_other (key k : string) (v : value) (st : state) :
  valid_store st → k ≠ key →
  injectedReducers (assigned "injectedReducers" key v st) !! k = injectedReducers st !! k.
Proof.
  intros Hv Hk. unfold injectedReducers.
  rewrite get_prop_assigned by (by apply valid_store_object).
  rewrite decide_True by done. by apply props_of_set_prop_other.
Qed.

Lemma injectedReducers_assigned_sagas (key : string) (v : value) (st : state) :
  valid_store st →
  injectedReducers (assigned "injectedSagas" key v st) = injectedReducers st.
Proof.
  intros Hv. unfold injectedReducers.
  by rewrite get_prop_assigned by (by apply valid_store_object).
Qed.

Lemma injectedSagas_assigned_reducers (key : string) (v : value) (st : state) :
  valid_store st →
  injectedSagas (assigned "injectedReducers" key v st) = injectedSagas st.
Proof.
  intros Hv. unfold injectedSagas.
  by rewrite get_prop_assigned by (by apply valid_store_object).
Qed.







Lemma saga_under_own (st : state) (key : string) (v : value) :
  injectedSagas st !! key = Some v → saga_under st key = Some v.
Proof. apply lookup_prop_own. Qed.


Lemma valid_key (key : string) :
  key ≠ "" → isString (VString key) && negb (isEmpty (VString key)) = true.
Proof. intros Hk. simpl. by rewrite bool_decide_eq_false_2. Qed.

(** The store check a closure makes when it was not told the store is
    valid. *)
Lemma guard_valid (isValid : bool) (st : state) :
  valid_store st →
  (if negb isValid then checkStore else ret tt) st = (Normal tt, st).
Proof. intros Hv. destruct isValid; [done|]. by apply checkStore_valid. Qed.

(** *** The three operations on a valid store *)

Lemma read_names_injectedReducers : "injectedReducers" ∈ read_names.
Proof. apply list_elem_of_In. cbn. tauto. Qed.

Lemma read_names_injectedSagas : "injectedSagas" ∈ read_names.
Proof. apply list_elem_of_In. cbn. tauto. Qed.

Lemma read_names_saga : "saga" ∈ read_names.
Proof. apply list_elem_of_In. cbn. tauto. Qed.

Lemma read_names_mode : "mode" ∈ read_names.
Proof. apply list_elem_of_In. cbn. tauto. Qed.


Lemma injectReducer_run (env : Env) (isValid : bool) (createReducer R : value)
    (key : string) (st : state) :
  valid_store st → key ≠ "" → isFunction R = true →
  injectReducerFactory env isValid createReducer (VString key) R st
  = if reducer_at st key R then (Normal tt, st)
    else
      let st' := assigned "injectedReducers" key R st in
      (rootReducer <- Function_apply env createReducer VUndefined
                        [get_prop (store st') "injectedReducers"];;
       store_replaceReducer rootReducer)%js st'.
Proof.
  intros Hv Hk HR.
  pose proof (valid_store_members _ Hv) as (_ & _ & _ & Hir & _).
  unfold injectReducerFactory. unfold bind at 1. rewrite guard_valid by done.
  unfold bind at 1. rewrite valid_key, HR by done. cbn [andb invariant].
  unfold ret at 1. cbn [property_key].
  unfold bind at 1. rewrite store_member_valid by done.
  unfold bind at 1. rewrite Reflect_has_object by done.
  unfold reducer_at, reducer_under, get_prop at 2.
  assert ((store_assign "injectedReducers" key R;;
           reducers' <- store_member "injectedReducers";;
           rootReducer <- Function_apply env createReducer VUndefined [reducers'];;
           store_replaceReducer rootReducer) st
          = (rootReducer <- Function_apply env createReducer VUndefined
                        [get_prop (store (assigned "injectedReducers" key R st)) "injectedReducers"];;
       store_replaceReducer rootReducer) (assigned "injectedReducers" key R st)) as Hrest.
  { unfold bind at 1.
    rewrite store_assign_object
      by eauto using valid_store_object, read_names_injectedReducers.
    unfold bind at 1. rewrite store_member_valid
      by (apply valid_store_assigned; auto).
    done. }
  destruct (lookup_prop (get_prop (store st) "injectedReducers") key) as [R'|];
    cbn [andb]; [|done].
  by destruct (strict_equal R' R).
Qed.

Lemma valid_descriptor_object (d : value) :
  valid_descriptor d = true → isObject d = true.
Proof.
  unfold valid_descriptor. destruct (isObject d) eqn:Ho; [done|].
  by rewrite get_prop_primitive.
Qed.

Lemma get_prop_newDescriptor_saga (d : value) :
  get_prop (object (<["mode" := descriptor_mode d]> (props_of d))) "saga"
  = get_prop d "saga".
Proof.
  rewrite !get_prop_read_name by apply read_names_saga.
  unfold object. cbn [props_of]. by rewrite lookup_insert_ne.
Qed.

Lemma get_prop_newDescriptor_mode (d : value) :
  get_prop (object (<["mode" := descriptor_mode d]> (props_of d))) "mode"
  = descriptor_mode d.
Proof.
  rewrite !get_prop_read_name by apply read_names_mode.
  unfold object. cbn [props_of]. by rewrite lookup_insert_eq.
Qed.

Lemma checkDescriptor_run (d : value) (st : state) :
  checkDescriptor (object (<["mode" := descriptor_mode d]> (props_of d))) st
  = invariant (valid_descriptor d)
      "(app/utils...) injectSaga: Expected a valid saga descriptor" st.
Proof.
  unfold checkDescriptor. f_equal.
  unfold conformsTo, valid_descriptor. cbn [is_nullish object forallb].
  fold (object (<["mode" := descriptor_mode d]> (props_of d))).
  rewrite get_prop_newDescriptor_saga, get_prop_newDescriptor_mode.
  rewrite andb_true_r.
  destruct (isFunction (get_prop d "saga")) eqn:Hs.
  - replace (is_undefined (get_prop d "saga")) with false
      by (by destruct (get_prop d "saga")).
    cbn [negb andb orb].
    destruct (isString (descriptor_mode d) && includes allowedModes (descriptor_mode d)) eqn:Hm.
    + replace (is_undefined (descriptor_mode d)) with false
        by (by destruct (descriptor_mode d)).
      done.
    + cbn [negb]. by rewrite orb_true_r.
  - cbn [negb andb]. by rewrite orb_true_r.
Qed.

(** The last step of [injectSaga]: start the saga and record its task. *)
Lemma injectSaga_start (key : string) (d args : value) (st : state) :
  valid_store st →
  (t <- store_runSaga (get_prop d "saga") args;;
   store_assign "injectedSagas" key
     (object (<["task" := t]> (props_of (object (<["mode" := descriptor_mode d]> (props_of d))))))) st
  = (Normal tt, injected key d args st).
Proof.
  intros Hv. unfold bind. rewrite store_runSaga_valid by done.
  rewrite store_assign_object.
  - done.
  - apply read_names_injectedSagas.
  - by apply valid_store_object.
  - by apply valid_store_members in Hv as (_ & _ & _ & _ & ?).
Qed.

Lemma injectSaga_run (env : Env) (isValid : bool) (key : string) (d args : value)
    (st : state) :
  valid_store st → key ≠ "" → valid_descriptor d = true →
  injectSagaFactory env isValid (VString key) d args st
  = match saga_under st key with
    | None => (Normal tt, injected key d args st)
    | Some old =>
        if production env || strict_equal (get_prop old "saga") (get_prop d "saga")
        then
          if production env || negb (is_nullish old)
          then
            if restarts (descriptor_mode d) then (Normal tt, injected key d args st)
            else (Normal tt, st)
          else (Throw TypeError, st)
        else if is_nullish old then (Throw TypeError, st)
        else
          match get_prop old "task" with
          | VObject (Task t) _ => (Normal tt, injected key d args (logged (Cancel t) st))
          | _ => (Throw TypeError, st)
          end
    end.
Proof.
  intros Hv Hk Hd.
  pose proof (valid_store_members _ Hv) as (_ & _ & _ & _ & His).
  pose proof (valid_descriptor_object _ Hd) as Ho.
  unfold injectSagaFactory.
  replace (default_parameter d (object ∅)) with d by (by destruct d).
  unfold bind at 1. rewrite guard_valid by done.
  unfold bind at 1. unfold read at 1.
  replace (is_nullish d) with false by (by destruct d).
  unfold ret at 1. fold (descriptor_mode d).
  rewrite get_prop_newDescriptor_saga, get_prop_newDescriptor_mode.
  unfold bind at 1. unfold checkKey. rewrite valid_key by done. cbn [invariant]. unfold ret at 1.
  unfold bind at 1. rewrite checkDescriptor_run, Hd. cbn [invariant]. unfold ret at 1.
  cbn [property_key].
  unfold bind at 1. rewrite store_member_valid by done.
  unfold bind at 1. rewrite Reflect_has_object by done.
  unfold saga_under.
  replace (get_prop (get_prop (store st) "injectedSagas") key)
    with (match lookup_prop (get_prop (store st) "injectedSagas") key with
          | Some v => v | None => VUndefined end) by done.
  destruct (lookup_prop (get_prop (store st) "injectedSagas") key) as [old|].
  2:{ unfold bind at 1. destruct (production env); cbn [negb]; unfold ret at 1;
      cbn [negb orb]; by apply injectSaga_start. }
  unfold bind at 1.
  destruct (production env); cbn [negb orb].
  { unfold ret at 1. cbn [negb orb andb].
    change (negb (strict_equal (descriptor_mode d) DAEMON)
            && negb (strict_equal (descriptor_mode d) ONCE_TILL_UNMOUNT))
      with (restarts (descriptor_mode d)).
    destruct (restarts _); [by apply injectSaga_start|done]. }
  unfold bind at 1. unfold read at 1.
  destruct (is_nullish old) eqn:Hn.
  { unfold throw.
    replace (strict_equal (get_prop old "saga") (get_prop d "saga")) with false; [done|].
    rewrite (get_prop_nullish old) by done.
    unfold valid_descriptor in Hd.
    by destruct (get_prop d "saga") as [| | | | |[] ?]. }
  unfold ret at 1.
  destruct (strict_equal (get_prop old "saga") (get_prop d "saga")); cbn [negb].
  { unfold ret at 1. cbn [negb orb andb].
    change (negb (strict_equal (descriptor_mode d) DAEMON)
            && negb (strict_equal (descriptor_mode d) ONCE_TILL_UNMOUNT))
      with (restarts (descriptor_mode d)).
    destruct (restarts _); [by apply injectSaga_start|done]. }
  unfold bind at 1. unfold read at 1. rewrite Hn. unfold ret at 1.
  unfold bind at 1. unfold cancel.
  destruct (get_prop old "task") as [| | | | |[] ?]; try done.
  unfold emit. unfold ret at 1. cbn [negb orb].
  by apply (injectSaga_start key d args (logged (Cancel t) st)).
Qed.

Lemma ejectSaga_run (env : Env) (isValid : bool) (key : string) (st : state) :
  valid_store st → key ≠ "" →
  ejectSagaFactory env isValid (VString key) st
  = match saga_under st key with
    | None => (Normal tt, st)
    | Some descriptor =>
        if is_nullish descriptor then (Throw TypeError, st)
        else if truthy (get_prop descriptor "mode")
                && negb (strict_equal (get_prop descriptor "mode") DAEMON)
        then
          match get_prop descriptor "task" with
          | VObject (Task t) _ =>
              (Normal tt,
               if production env
               then assigned "injectedSagas" key (VString "done") (logged (Cancel t) st)
               else logged (Cancel t) st)
          | _ => (Throw TypeError, st)
          end
        else (Normal tt, st)
    end.
Proof.
  intros Hv Hk.
  pose proof (valid_store_members _ Hv) as (_ & _ & _ & _ & His).
  unfold ejectSagaFactory.
  unfold bind at 1. rewrite guard_valid by done.
  unfold bind at 1. unfold checkKey. rewrite valid_key by done. cbn [invariant]. unfold ret at 1.
  cbn [property_key].
  unfold bind at 1. rewrite store_member_valid by done.
  unfold bind at 1. rewrite Reflect_has_object by done.
  unfold saga_under.
  replace (get_prop (get_prop (store st) "injectedSagas") key)
    with (match lookup_prop (get_prop (store st) "injectedSagas") key with
          | Some v => v | None => VUndefined end) by done.
  destruct (lookup_prop (get_prop (store st) "injectedSagas") key) as [descriptor|]; [|done].
  unfold bind at 1. unfold read at 1.
  destruct (is_nullish descriptor) eqn:Hn; [done|]. unfold ret at 1.
  destruct (truthy _ && negb _); [|done].
  unfold bind at 1. unfold read at 1. rewrite Hn. unfold ret at 1.
  unfold bind at 1. unfold cancel.
  destruct (get_prop descriptor "task") as [| | | | |[] ?]; try done.
  unfold emit. destruct (production env); [|done].
  rewrite store_assign_object; [done|apply read_names_injectedSagas| |].
  - by apply valid_store_object.
  - done.
Qed.

(** Facts about the states the saga injector produces. *)
Lemma valid_store_logged (e : event) (st : state) :
  valid_store st → valid_store (logged e st).
Proof. done. Qed.

Lemma valid_store_injected (key : string) (d args : value) (st : state) :
  valid_store st → valid_store (injected key d args st).
Proof. intros Hv. apply valid_store_assigned; auto. Qed.

Lemma injectedSagas_injected (key : string) (d args : value) (st : state) :
  valid_store st → key ≠ "__proto__" ∨ is_Some (injectedSagas st !! key) →
  injectedSagas (injected key d args st)
  = <[key := saga_entry d (next_task st)]> (injectedSagas st).
Proof. intros Hv Hk. unfold injected. by rewrite injectedSagas_assigned. Qed.


Lemma trace_injected (key : string) (d args : value) (st : state) :
  trace (injected key d args st)
  = trace st ++ [RunSaga (get_prop d "saga") args (next_task st)].
Proof. done. Qed.




Lemma valid_descriptor_saga (d : value) :
  valid_descriptor d = true → typeof_function (get_prop d "saga") = true.
Proof. unfold valid_descriptor. by intros (? & _)%andb_true_iff. Qed.


Lemma calls_snoc kind (tr : list event) (e : event) :
  calls kind (tr ++ [e]) = calls kind tr + (if kind e then 1 else 0).
Proof. rewrite calls_app. unfold calls. simpl. by destruct (kind e). Qed.


Lemma has_task_not_nullish (old : value) :
  is_task (get_prop old "task") = true → is_nullish old = false.
Proof.
  intros Ht. destruct (is_nullish old) eqn:Hn; [|done].
  by rewrite get_prop_nullish in Ht.
Qed.

(** Computations that invoke no [cancel] compose. *)
Lemma cancels_nothing_ret {A} (a : A) : cancels_nothing (ret a).
Proof. intros st c st' [= _ <-]. done. Qed.

Lemma cancels_nothing_throw {A} (e : value) : cancels_nothing (@throw A e).
Proof. intros st c st' [= _ <-]. done. Qed.

Lemma cancels_nothing_bind {A B} (m : M A) (k : A → M B) :
  cancels_nothing m → (∀ a, cancels_nothing (k a)) → cancels_nothing (bind m k).
Proof.
  intros Hm Hk st c st'. unfold bind.
  destruct (m st) as [[a|e] st1] eqn:Hrun.
  - intros Hrun'. rewrite (Hk a _ _ _ Hrun'). eapply Hm, Hrun.
  - intros [= _ <-]. eapply Hm, Hrun.
Qed.

Lemma cancels_nothing_if {A} (b : bool) (m1 m2 : M A) :
  cancels_nothing m1 → cancels_nothing m2 → cancels_nothing (if b then m1 else m2).
Proof. by destruct b. Qed.

Lemma cancels_nothing_invariant (condition : bool) (format : string) :
  cancels_nothing (invariant condition format).
Proof.
  destruct condition; [apply cancels_nothing_ret|apply cancels_nothing_throw].
Qed.

Lemma cancels_nothing_checkStore : cancels_nothing checkStore.
Proof. intros st c st'. unfold checkStore. apply cancels_nothing_invariant. Qed.

Lemma cancels_nothing_read (o : value) (p : string) : cancels_nothing (read o p).
Proof.
  unfold read. apply cancels_nothing_if;
    [apply cancels_nothing_throw|apply cancels_nothing_ret].
Qed.

Lemma cancels_nothing_store_member (member : string) :
  cancels_nothing (store_member member).
Proof. intros st c st'. unfold store_member. apply cancels_nothing_read. Qed.

Lemma cancels_nothing_Reflect_has (target : value) (key : string) :
  cancels_nothing (Reflect_has target key).
Proof.
  destruct target; try apply cancels_nothing_throw. apply cancels_nothing_ret.
Qed.

Lemma cancels_nothing_store_assign (member key : string) (v : value) :
  cancels_nothing (store_assign member key v).
Proof.
  intros st c st'. unfold store_assign.
  destruct (store st) as [| | | | |? props]; try by intros [= _ <-].
  destruct (props !! member) as [[| | | | |? ?]|]; by intros [= _ <-].
Qed.

Lemma cancels_nothing_store_runSaga (saga args : value) :
  cancels_nothing (store_runSaga saga args).
Proof.
  unfold store_runSaga. apply cancels_nothing_bind;
    [apply cancels_nothing_store_member|].
  intros f. apply cancels_nothing_if; [|apply cancels_nothing_throw].
  intros st c st' [= _ <-]. cbn [trace]. by rewrite calls_snoc, Nat.add_0_r.
Qed.

Lemma bind_run {A B} (m : M A) (k : A → M B) (st : state) :
  bind m k st
  = match m st with
    | (Normal a, st') => k a st'
    | (Throw e, st') => (Throw e, st')
    end.
Proof. done. Qed.


Lemma Promise_resolve_plain (v : value) :
  is_promise v = false → Promise_resolve v = Fulfilled v.
Proof. by destruct v as [| | | | |[] ?]. Qed.

(** *** Keys that name what the mapping itself holds *)








Lemma lookup_foldr_delete (m : gmap string value) (keys : list string) (k : string) :
  foldr delete m keys !! k = if decide (k ∈ keys) then None else m !! k.
Proof.
  induction keys as [|key keys IH]; cbn [foldr].
  - rewrite decide_False; [done|]. apply not_elem_of_nil.
  - rewrite lookup_delete. destruct (decide (key = k)) as [->|Hk].
    + rewrite decide_True; [done|]. apply elem_of_cons. by left.
    + rewrite IH. destruct (decide (k ∈ keys)) as [Hin|Hin].
      * rewrite decide_True; [done|]. apply elem_of_cons. by right.
      * rewrite decide_False; [done|]. intros [?|?]%elem_of_cons; congruence.
Qed.

Lemma rest_props_Component (config : value) :
  foldr delete (props_of config) route_fields !! "Component"
  = props_of config !! "Component".
Proof.
  rewrite lookup_foldr_delete. rewrite decide_False; [done|].
  unfold route_fields. intros Hin%list_elem_of_In. cbn in Hin.
  repeat destruct Hin as [Hin|Hin]; try discriminate. done.
Qed.

(** ** Runs on the sample data *)

Example users_reducer_twice :
  let inject := injectReducerFactory Sample.production_build true Sample.createReducer
                  (VString "users") Sample.usersReducer in
  (inject;; inject) Sample.fresh
  = (Normal tt,
     logged (ReplaceReducer (array [object {[ "users" := Sample.usersReducer ]}]))
       (assigned "injectedReducers" "users" Sample.usersReducer Sample.fresh)).
Proof. vm_compute. reflexivity. Qed.

Example daemon_twice :
  let inject := injectSagaFactory Sample.development_build true (VString "users")
                  (object {[ "saga" := Sample.watchUsers ]}) VUndefined in
  trace (snd ((inject;; inject) Sample.fresh)) = [RunSaga Sample.watchUsers VUndefined 0].
Proof. vm_compute. reflexivity. Qed.

Example restart_twice :
  let inject := injectSagaFactory Sample.development_build true (VString "users")
                  (Sample.descriptor Sample.watchUsers RESTART_ON_REMOUNT) VUndefined in
  trace (snd ((inject;; inject) Sample.fresh))
  = [RunSaga Sample.watchUsers VUndefined 0; RunSaga Sample.watchUsers VUndefined 1].
Proof. vm_compute. reflexivity. Qed.

Example running_is_injected :
  injectSagaFactory Sample.production_build true (VString "users")
    (Sample.descriptor Sample.watchUsers ONCE_TILL_UNMOUNT) VUndefined Sample.fresh
  = (Normal tt, Sample.running ONCE_TILL_UNMOUNT).
Proof. vm_compute. reflexivity. Qed.

Example missing_runSaga :
  sagaInjectors Sample.production_build Sample.no_runSaga
  = (Throw (ContractViolation "(app/utils...) injectors: Expected a valid redux store"),
     Sample.no_runSaga).
Proof. vm_compute. reflexivity. Qed.

Example profile_route_resolves :
  let run :=
    (provider <- simpleLazyLoadedRoute Sample.production_build Sample.createReducer;;
     route <- provider Sample.profile_route;;
     Component route) Sample.fresh in
  fst run
  = Normal (promise (Fulfilled (array [object {[ "name" := VString "profile";
                                                  "reducer" := Sample.profileReducer ]}])))
  ∧ injectedReducers (snd run) !! "profile" = Some Sample.profileReducer
  ∧ trace (snd run)
    = [ReplaceReducer (array [object {[ "profile" := Sample.profileReducer ]}])].
Proof. vm_compute. repeat split; reflexivity. Qed.

(** A key that a fresh mapping inherits counts as taken. *)
Example constructor_is_taken :
  injectSagaFactory Sample.production_build true (VString "constructor")
    (Sample.descriptor Sample.watchUsers DAEMON) VUndefined Sample.fresh
  = (Normal tt, Sample.fresh)
  ∧ injectSagaFactory Sample.development_build true (VString "constructor")
      (Sample.descriptor Sample.watchUsers DAEMON) VUndefined Sample.fresh
    = (Throw TypeError, Sample.fresh)
  ∧ injectReducerFactory Sample.production_build true Sample.createReducer
      (VString "constructor") More.Object_constructor Sample.fresh
    = (Normal tt, Sample.fresh).
Proof. vm_compute. repeat split; reflexivity. Qed.

(** An assignment under [__proto__] records no entry. *)
Example proto_is_not_recorded :
  let run := injectReducerFactory Sample.production_build true Sample.createReducer
               (VString "__proto__") Sample.usersReducer Sample.fresh in
  fst run = Normal tt
  ∧ injectedReducers (snd run) = ∅
  ∧ calls is_ReplaceReducer (trace (snd run)) = 1.
Proof. vm_compute. repeat split; reflexivity. Qed.

(** A chunk whose export is a function is injected under the name of the
    function. *)
Example function_export :
  let run :=
    (provider <- simpleLazyLoadedRoute Sample.production_build Sample.createReducer;;
     route <- provider (More.route [promise (Fulfilled More.container_module);
                                    promise (Fulfilled More.named_export)]);;
     Component route) Sample.fresh in
  reducer_under (snd run) "profile" = Some Sample.profileReducer.
Proof. vm_compute. reflexivity. Qed.

(** A [Component] of the configuration replaces the lazy one. *)
Example own_Component_replaces :
  let run :=
    (provider <- simpleLazyLoadedRoute Sample.production_build Sample.createReducer;;
     route <- provider (More.with_Component Sample.profile_route);;
     Component route) Sample.fresh in
  run = (Normal (array []), Sample.fresh).
Proof. vm_compute. reflexivity. Qed.

(** ** The reducer injector *)

Section ReducerInjector.

Context (env : Env) (isValid : bool) (createReducer : value).





End ReducerInjector.


(** ** The saga injector *)

Section SagaInjector.

Context (env : Env) (isValid : bool).



(** When the hot-reload check finds another saga and no task to cancel,
    the call throws before anything is started. *)
Lemma injectSaga_no_task (key : string) (d args old : value) (st : state) :
  valid_store st → key ≠ "" → valid_descriptor d = true →
  production env = false → saga_under st key = Some old →
  strict_equal (get_prop old "saga") (get_prop d "saga") = false →
  is_task (get_prop old "task") = false →
  injectSagaFactory env isValid (VString key) d args st = (Throw TypeError, st).
Proof.
  intros Hv Hk Hd Hp Hold He Ht. rewrite injectSaga_run by done.
  rewrite Hold, Hp, He. cbn [orb]. destruct (is_nullish old); [done|].
  by destruct (get_prop old "task") as [| | | | |[] ?].
Qed.


End SagaInjector.

Section HotReload.

Context (env : Env) (isValid : bool).

Lemma injectSaga_production_cancels_nothing (key d args : value) :
  production env = true →
  cancels_nothing (injectSagaFactory env isValid key d args).
Proof.
  intros Hp. unfold injectSagaFactory. rewrite Hp. cbn [negb].
  apply cancels_nothing_bind.
  { apply cancels_nothing_if; [apply cancels_nothing_checkStore|apply cancels_nothing_ret]. }
  intros _. apply cancels_nothing_bind; [apply cancels_nothing_read|]. intros mode.
  apply cancels_nothing_bind; [apply cancels_nothing_invariant|]. intros _.
  apply cancels_nothing_bind; [apply cancels_nothing_invariant|]. intros _.
  apply cancels_nothing_bind; [apply cancels_nothing_store_member|]. intros sagas.
  apply cancels_nothing_bind; [apply cancels_nothing_Reflect_has|]. intros hasSaga.
  apply cancels_nothing_bind; [apply cancels_nothing_ret|]. intros hasSaga'.
  apply cancels_nothing_if; [|apply cancels_nothing_ret].
  apply cancels_nothing_bind; [apply cancels_nothing_store_runSaga|]. intros t.
  apply cancels_nothing_store_assign.
Qed.

(** C6. The hot-reload policy.  In a non-production build, when
    [injectSaga(key, descriptor)] finds at the key an entry whose stored
    saga is not reference-equal to the descriptor's, it invokes the
    [cancel] of that entry's task, then starts the new saga and records it,
    as if the entry were absent.  In a production build [injectSaga]
    invokes no [cancel], whatever its arguments and however it completes. *)
Theorem injectSaga_hot_reload (key : string) (d args : value) (st : state) :
  valid_store st → key ≠ "" → valid_descriptor d = true →
  (production env = false →
   ∀ old t p, injectedSagas st !! key = Some old →
     strict_equal (get_prop old "saga") (get_prop d "saga") = false →
     get_prop old "task" = VObject (Task t) p →
     ∃ st', injectSagaFactory env isValid (VString key) d args st = (Normal tt, st')
       ∧ trace st' = trace st ++ [Cancel t; RunSaga (get_prop d "saga") args (next_task st)]
       ∧ injectedSagas st' = <[key := saga_entry d (next_task st)]> (injectedSagas st))
  ∧ (production env = true →
     ∀ key' d' args' s c s', injectSagaFactory env isValid key' d' args' s = (c, s') →
       calls is_Cancel (trace s') = calls is_Cancel (trace s)).
Proof.
  intros Hv Hk Hd. split.
  - intros Hp old t p Hold He Ht. rewrite injectSaga_run by done.
    rewrite (saga_under_own _ _ _ Hold), Hp, He, Ht. cbn [orb].
    assert (is_nullish old = false) as ->.
    { apply has_task_not_nullish. by rewrite Ht. }
    eexists. split; [done|].
    rewrite (injectedSagas_injected key d args (logged (Cancel t) st)), trace_injected
      by (try done; right; by eexists).
    cbn [logged trace next_task].
    split; [by rewrite <- app_assoc|done].
  - intros Hp key' d' args' s c s'.
    by apply injectSaga_production_cancels_nothing.
Qed.

End HotReload.

(** ** The saga ejector *)

Section SagaEjector.

Context (env : Env) (isValid : bool).

(** C5. [ejectSaga] never cancels a DAEMON entry: on a valid store, when
    [injectedSagas[key]] exists with mode DAEMON, [ejectSaga(key)] returns
    with the state unchanged, so no [cancel] is invoked and the entry
    stays as it was. *)
Theorem ejectSaga_keeps_daemon (key : string) (descriptor : value) (st : state) :
  valid_store st → key ≠ "" →
  injectedSagas st !! key = Some descriptor →
  get_prop descriptor "mode" = DAEMON →
  ejectSagaFactory env isValid (VString key) st = (Normal tt, st).
Proof.
  intros Hv Hk Hl Hm. rewrite ejectSaga_run by done.
  rewrite (saga_under_own _ _ _ Hl), Hm.
  destruct (is_nullish descriptor) eqn:Hn; [|done].
  by rewrite get_prop_nullish in Hm.
Qed.

(** Once the sentinel is in place further ejections do nothing. *)
Lemma eject_times_done (key : string) (n : nat) (st : state) :
  valid_store st → key ≠ "" →
  injectedSagas st !! key = Some (VString "done") →
  eject_times env isValid (VString key) n st = (Normal tt, st).
Proof.
  intros Hv Hk Hl. induction n as [|n IH]; [done|].
  cbn [eject_times]. unfold bind. rewrite ejectSaga_run by done.
  rewrite (saga_under_own _ _ _ Hl). cbn [is_nullish].
  by rewrite get_prop_primitive.
Qed.

(** In a non-production build the entry stays, and with it its task. *)
Lemma eject_times_development (key : string) (descriptor : value) (t : nat)
    (p : gmap string value) (n : nat) (st : state) :
  production env = false → valid_store st → key ≠ "" →
  injectedSagas st !! key = Some descriptor →
  truthy (get_prop descriptor "mode") = true →
  strict_equal (get_prop descriptor "mode") DAEMON = false →
  get_prop descriptor "task" = VObject (Task t) p →
  ∃ st', eject_times env isValid (VString key) n st = (Normal tt, st')
    ∧ trace st' = trace st ++ replicate n (Cancel t)
    ∧ store st' = store st.
Proof.
  intros Hp Hv Hk Hl Hm Hd Ht. revert st Hv Hl.
  induction n as [|n IH]; intros st Hv Hl.
  - exists st. by rewrite app_nil_r.
  - cbn [eject_times]. unfold bind. rewrite ejectSaga_run by done.
    rewrite (saga_under_own _ _ _ Hl), Hm, Hd, Ht, Hp.
    assert (is_nullish descriptor = false) as ->.
    { apply has_task_not_nullish. by rewrite Ht. }
    cbn [negb andb].
    destruct (IH (logged (Cancel t) st)) as (st' & Hrun & Htr & Hst); [done..|].
    exists st'. split; [done|]. split; [|done].
    rewrite Htr. cbn [logged trace replicate]. by rewrite <- app_assoc.
Qed.

(** C4, amended.  For an entry whose mode is not DAEMON and whose task is
    [t], on a valid store: in a production build, any sequence of one or
    more [ejectSaga(key)] calls invokes [t.cancel()] exactly once, the first
    call leaving the sentinel at the key; in a non-production build the
    entry is kept and every [ejectSaga(key)] call invokes [t.cancel()]
    again, [n] calls invoking it [n] times. *)
Theorem ejectSaga_cancels (key : string) (descriptor : value) (t : nat)
    (p : gmap string value) (n : nat) (st : state) :
  valid_store st → key ≠ "" →
  injectedSagas st !! key = Some descriptor →
  truthy (get_prop descriptor "mode") = true →
  strict_equal (get_prop descriptor "mode") DAEMON = false →
  get_prop descriptor "task" = VObject (Task t) p →
  ∃ st', eject_times env isValid (VString key) (S n) st = (Normal tt, st')
    ∧ if production env
      then trace st' = trace st ++ [Cancel t]
           ∧ injectedSagas st' = <[key := VString "done"]> (injectedSagas st)
      else trace st' = trace st ++ replicate (S n) (Cancel t)
           ∧ store st' = store st.
Proof.
  intros Hv Hk Hl Hm Hd Ht.
  destruct (production env) eqn:Hp.
  - assert (key ≠ "__proto__" ∨ is_Some (injectedSagas (logged (Cancel t) st) !! key))
      as Hrec by (right; by eexists).
    cbn [eject_times]. unfold bind. rewrite ejectSaga_run by done.
    rewrite (saga_under_own _ _ _ Hl), Hm, Hd, Ht, Hp.
    assert (is_nullish descriptor = false) as ->.
    { apply has_task_not_nullish. by rewrite Ht. }
    cbn [negb andb].
    rewrite eject_times_done.
    + eexists. split; [done|]. split; [done|].
      by rewrite (injectedSagas_assigned key _ (logged (Cancel t) st)).
    + apply valid_store_assigned; auto.
    + done.
    + rewrite (injectedSagas_assigned key _ (logged (Cancel t) st)) by done.
      apply lookup_insert_eq.
  - by apply eject_times_development with descriptor p.
Qed.

(** C1, amended.  In a production build, after [ejectSaga(key)] has ejected
    an entry whose mode is ONCE_TILL_UNMOUNT, leaving the sentinel at the
    key, a following [injectSaga(key, descriptor)] with mode
    ONCE_TILL_UNMOUNT finds the sentinel as an existing entry and changes
    nothing: [store.runSaga] is not called, the sentinel stays, and the saga
    is not started again. *)
Theorem injectSaga_after_eject (key : string) (entry d args : value) (t : nat)
    (p : gmap string value) (st : state) :
  production env = true → valid_store st → key ≠ "" →
  injectedSagas st !! key = Some entry →
  get_prop entry "mode" = ONCE_TILL_UNMOUNT →
  get_prop entry "task" = VObject (Task t) p →
  valid_descriptor d = true → descriptor_mode d = ONCE_TILL_UNMOUNT →
  ∃ st1, ejectSagaFactory env isValid (VString key) st = (Normal tt, st1)
    ∧ trace st1 = trace st ++ [Cancel t]
    ∧ injectedSagas st1 !! key = Some (VString "done")
    ∧ injectSagaFactory env isValid (VString key) d args st1 = (Normal tt, st1).
Proof.
  intros Hp Hv Hk Hl Hm Ht Hd Hdm.
  assert (key ≠ "__proto__" ∨ is_Some (injectedSagas (logged (Cancel t) st) !! key))
    as Hrec by (right; by eexists).
  rewrite ejectSaga_run by done. rewrite (saga_under_own _ _ _ Hl), Hm, Ht, Hp.
  assert (is_nullish entry = false) as ->.
  { apply has_task_not_nullish. by rewrite Ht. }
  change (truthy ONCE_TILL_UNMOUNT && negb (strict_equal ONCE_TILL_UNMOUNT DAEMON))
    with true. cbv iota.
  eexists. split; [done|]. split; [done|].
  assert (injectedSagas (assigned "injectedSagas" key (VString "done") (logged (Cancel t) st))
          !! key = Some (VString "done")) as Hdone.
  { rewrite (injectedSagas_assigned key _ (logged (Cancel t) st)) by done.
    apply lookup_insert_eq. }
  split; [done|].
  rewrite injectSaga_run; [|apply valid_store_assigned; auto|done..].
  rewrite (saga_under_own _ _ _ Hdone), Hp, Hdm. done.
Qed.

End SagaEjector.

(** C1 fails as stated: in a production build, inject a saga under
    ONCE_TILL_UNMOUNT, eject it, and inject it again; the second injection
    finds the sentinel and leaves the state as it is, so [runSaga] has been
    called once in all, not twice. *)
Lemma injectSaga_after_eject_starts_nothing :
  let env := Sample.production_build in
  let d := Sample.descriptor Sample.watchUsers ONCE_TILL_UNMOUNT in
  let inject := injectSagaFactory env true (VString "users") d VUndefined in
  let eject := ejectSagaFactory env true (VString "users") in
  let ejected := snd ((inject;; eject) Sample.fresh) in
  injectedSagas ejected !! "users" = Some (VString "done")
  ∧ inject ejected = (Normal tt, ejected)
  ∧ trace (snd (inject ejected)) = [RunSaga Sample.watchUsers VUndefined 0; Cancel 0]
  ∧ calls is_RunSaga (trace (snd (inject ejected)))
    ≠ S (calls is_RunSaga (trace ejected)).
Proof. vm_compute. repeat split; try reflexivity. discriminate. Qed.

(** C4 fails as stated: in a non-production build, inject a saga under
    ONCE_TILL_UNMOUNT and eject it twice; the entry is kept, and the second
    ejection cancels the task a second time. *)
Lemma ejectSaga_twice_cancels_twice :
  let env := Sample.development_build in
  let d := Sample.descriptor Sample.watchUsers ONCE_TILL_UNMOUNT in
  let inject := injectSagaFactory env true (VString "users") d VUndefined in
  let eject := ejectSagaFactory env true (VString "users") in
  let run := (inject;; eject;; eject) Sample.fresh in
  fst run = Normal tt
  ∧ trace (snd run) = [RunSaga Sample.watchUsers VUndefined 0; Cancel 0; Cancel 0]
  ∧ calls (is_Cancel_of 0) (trace (snd run)) = 2
  ∧ calls (is_Cancel_of 0) (trace (snd run)) ≠ 1.
Proof. vm_compute. repeat split; try reflexivity. discriminate. Qed.

(** ** Validation comes first *)

Section Validation.

Context (env : Env).

Lemma guard_cases (isValid : bool) (st : state) :
  (if negb isValid then checkStore else ret tt) st = (Normal tt, st)
  ∨ ∃ format, (if negb isValid then checkStore else ret tt) st
              = (Throw (ContractViolation format), st).
Proof.
  destruct isValid; cbn [negb]; [by left|].
  unfold checkStore. destruct (conformsTo _ _); [by left|right; by eexists].
Qed.

Lemma missing_member_invalid (member : string) (st : state) :
  member ∈ store_shape.*1 → has_prop (store st) member = false → ¬ valid_store st.
Proof.
  intros Hin Hmiss Hv. unfold valid_store, conformsTo in Hv.
  destruct (is_nullish (store st)); [done|].
  assert (get_prop (store st) member = VUndefined) as Hu.
  { unfold get_prop. unfold has_prop in Hmiss. rewrite bool_decide_is_Some in Hmiss.
    by destruct (lookup_prop (store st) member). }
  unfold store_shape in *. cbn [forallb fmap list_fmap fst] in *.
  rewrite !andb_true_iff in Hv.
  destruct Hv as (H1 & H2 & H3 & H4 & H5 & H6 & H7 & _).
  repeat (apply elem_of_cons in Hin as [-> | Hin];
          [rewrite Hu, Hmiss in *; done|]).
  by apply elem_of_nil in Hin.
Qed.

Lemma injectReducer_invalid (isValid : bool) (createReducer key reducer : value)
    (st : state) :
  isString key && negb (isEmpty key) && isFunction reducer = false →
  ∃ format, injectReducerFactory env isValid createReducer key reducer st
            = (Throw (ContractViolation format), st).
Proof.
  intros Hb. unfold injectReducerFactory. unfold bind at 1.
  destruct (guard_cases isValid st) as [-> | [format ->]]; [|by eexists].
  unfold bind at 1. rewrite Hb. by eexists.
Qed.

Lemma injectSaga_invalid (isValid : bool) (key d args : value) (st : state) :
  isString key && negb (isEmpty key) = false ∨ valid_descriptor d = false →
  ∃ e, injectSagaFactory env isValid key d args st = (Throw e, st)
       ∧ (d ≠ VNull → ∃ format, e = ContractViolation format).
Proof.
  intros Hb. unfold injectSagaFactory. unfold bind at 1.
  destruct (guard_cases isValid st) as [-> | [format ->]]; [|by eauto].
  unfold bind at 1. unfold read at 1.
  destruct (is_nullish (default_parameter d (object ∅))) eqn:Hn.
  { exists TypeError. split; [done|]. by destruct d. }
  unfold ret at 1. unfold bind at 1. unfold checkKey.
  destruct (isString key && negb (isEmpty key)); [|by eauto].
  cbn [invariant]. unfold ret at 1. destruct Hb as [|Hd]; [done|].
  unfold bind at 1.
  pose proof (checkDescriptor_run (default_parameter d (object ∅)) st) as Hc.
  unfold descriptor_mode in Hc. rewrite Hc.
  assert (valid_descriptor (default_parameter d (object ∅)) = false) as ->.
  { destruct d; try done. }
  by eauto.
Qed.

Lemma ejectSaga_invalid (isValid : bool) (key : value) (st : state) :
  isString key && negb (isEmpty key) = false →
  ∃ format, ejectSagaFactory env isValid key st = (Throw (ContractViolation format), st).
Proof.
  intros Hb. unfold ejectSagaFactory. unfold bind at 1.
  destruct (guard_cases isValid st) as [-> | [format ->]]; [|by eauto].
  unfold bind at 1. unfold checkKey. rewrite Hb. by eauto.
Qed.

(** C7. Every validation failure happens before any mutation.  A store
    that lacks one of the seven required members is not valid, and on a
    store that is not valid each exported factory ([reducerInjectors],
    [sagaInjectors], [simpleLazyLoadedRoute]) throws a contract violation
    and leaves the state as it was.  Likewise [injectReducer] given an
    invalid key or reducer, [injectSaga] given an invalid key or descriptor
    and [ejectSaga] given an invalid key throw with the state unchanged:
    neither mapping is touched and no [runSaga], [replaceReducer] or
    [cancel] is called.  What they throw is a contract violation, except
    that [injectSaga] given [null] for a descriptor throws the [TypeError]
    of reading [null.mode]. *)
Theorem validation_before_mutation (st : state) :
  (∀ member, member ∈ store_shape.*1 → has_prop (store st) member = false →
             ¬ valid_store st)
  ∧ (¬ valid_store st →
     ∀ reducers, ∃ format,
       reducerInjectors env reducers st = (Throw (ContractViolation format), st)
       ∧ sagaInjectors env st = (Throw (ContractViolation format), st)
       ∧ simpleLazyLoadedRoute env reducers st = (Throw (ContractViolation format), st))
  ∧ (∀ isValid createReducer key reducer,
       isString key && negb (isEmpty key) && isFunction reducer = false →
       ∃ format, injectReducerFactory env isValid createReducer key reducer st
                 = (Throw (ContractViolation format), st))
  ∧ (∀ isValid key d args,
       isString key && negb (isEmpty key) = false ∨ valid_descriptor d = false →
       ∃ e, injectSagaFactory env isValid key d args st = (Throw e, st)
            ∧ (d ≠ VNull → ∃ format, e = ContractViolation format))
  ∧ (∀ isValid key,
       isString key && negb (isEmpty key) = false →
       ∃ format, ejectSagaFactory env isValid key st
                 = (Throw (ContractViolation format), st)).
Proof.
  split; [|split; [|split; [|split]]].
  - intros member. apply missing_member_invalid.
  - intros Hv reducers. eexists.
    unfold simpleLazyLoadedRoute, reducerInjectors, sagaInjectors, bind.
    rewrite checkStore_invalid by done. done.
  - intros. by apply injectReducer_invalid.
  - intros. by apply injectSaga_invalid.
  - intros. by apply ejectSaga_invalid.
Qed.

End Validation.

(** ** The lazy route *)

Section Route.

Context (env : Env).
Context (injectReducer : value → value → M unit).
Context (injectSaga : value → value → value → M unit).

Lemma default_or_self_object (chunk : value) (st : state) :
  is_nullish chunk = false →
  default_or_self chunk st = (Normal (chunk_exports chunk), st).
Proof. intros Hn. unfold default_or_self, bind, read. by rewrite Hn. Qed.

Lemma default_or_self_nullish (chunk : value) (st : state) :
  is_nullish chunk = true → default_or_self chunk st = (Throw TypeError, st).
Proof. intros Hn. unfold default_or_self, bind, read. by rewrite Hn. Qed.

Lemma chunk_exports_not_nullish (chunk : value) :
  is_nullish chunk = false → is_nullish (chunk_exports chunk) = false.
Proof.
  intros Hn. unfold chunk_exports.
  destruct (truthy (get_prop chunk "default")) eqn:Ht; [|done].
  by destruct (get_prop chunk "default").
Qed.

Lemma map_default_or_self (chunks : list value) (st : state) :
  Forall (λ chunk, is_nullish chunk = false) chunks →
  map_ chunks default_or_self st = (Normal (chunk_exports <$> chunks), st).
Proof.
  induction 1 as [|chunk rest Hn _ IH]; [done|].
  cbn [map_]. unfold bind. rewrite default_or_self_object by done.
  by rewrite IH.
Qed.

(** The body of the loop of [applyPromise]. *)
Lemma inject_chunk_run (chunk : value) (st : state) :
  (exports <- default_or_self chunk;;
   name <- read exports "name";;
   reducer <- read exports "reducer";;
   saga <- read exports "saga";;
   (if truthy reducer then injectReducer name reducer else ret tt);;
   (if truthy saga
    then injectSaga name (object {[ "saga" := saga ]}) VUndefined
    else ret tt)) st
  = inject_chunk injectReducer injectSaga chunk st.
Proof.
  unfold inject_chunk. unfold bind at 1.
  destruct (is_nullish chunk) eqn:Hn.
  { by rewrite default_or_self_nullish. }
  rewrite default_or_self_object by done.
  unfold read. rewrite chunk_exports_not_nullish by done.
  unfold bind at 1. unfold ret at 1. unfold bind at 1. unfold ret at 1.
  unfold bind at 1. unfold ret at 1. done.
Qed.

(** The loop of [applyPromise] is the injection in order of the
    specification. *)
Lemma forEach_inject_in_order (chunks : list value) (st : state) :
  forEach chunks (λ chunk,
    exports <- default_or_self chunk;;
    name <- read exports "name";;
    reducer <- read exports "reducer";;
    saga <- read exports "saga";;
    (if truthy reducer then injectReducer name reducer else ret tt);;
    (if truthy saga
     then injectSaga name (object {[ "saga" := saga ]}) VUndefined
     else ret tt)) st
  = inject_in_order injectReducer injectSaga chunks st.
Proof.
  revert st. induction chunks as [|chunk rest IH]; intros st; [done|].
  cbn [forEach inject_in_order]. unfold bind at 1.
  rewrite inject_chunk_run.
  rewrite (bind_run (inject_chunk _ _ _)).
  destruct (inject_chunk _ _ _ _) as [[[]|e] st']; [apply IH|done].
Qed.

(** Chunks that have all been injected were objects. *)
Lemma inject_in_order_objects (chunks : list value) (st st' : state) :
  inject_in_order injectReducer injectSaga chunks st = (Normal tt, st') →
  Forall (λ chunk, is_nullish chunk = false) chunks.
Proof.
  revert st. induction chunks as [|chunk rest IH]; intros st; [by constructor|].
  cbn [inject_in_order]. rewrite bind_run.
  destruct (inject_chunk _ _ _ _) as [[[]|e] st1] eqn:Hchunk; [|done].
  intros Hrest. constructor; [|by eapply IH].
  unfold inject_chunk in Hchunk. by destruct (is_nullish chunk).
Qed.

Lemma construct_run (container promiseContainer : value) (chunks : list value)
    (st : state) :
  Forall (λ chunk, is_nullish chunk = false) chunks →
  try_catch
    (this <- read promiseContainer "default";;
     args <- map_ chunks default_or_self;;
     method_apply env container this args)
    (λ error, ret error) st
  = (Normal (constructed env container promiseContainer chunks), st).
Proof.
  intros Hall. unfold try_catch, constructed, bind, read.
  destruct (is_nullish promiseContainer); [done|].
  unfold ret at 1. rewrite map_default_or_self by done.
  unfold method_apply.
  destruct (props_of container !! "apply") as [own|].
  - unfold Function_apply. destruct own as [| | | | |[] ?]; try done.
    by destruct (call env f _ _).
  - unfold Function_apply. destruct container as [| | | | |[] ?]; try done.
    by destruct (call env f _ _).
Qed.

Lemma applyPromise_fulfilled (container : value) (containerPromise : value)
    (chunksPromise : list value) (p : gmap string value)
    (promiseContainer : value) (chunks : list value) (st : state) :
  gather (containerPromise :: chunksPromise) = AllFulfilled (promiseContainer :: chunks) →
  applyPromise env injectReducer injectSaga container
    (VObject (Array (containerPromise :: chunksPromise)) p) st
  = match inject_in_order injectReducer injectSaga chunks st with
    | (Normal _, st') =>
        (Normal (promise (caught (Promise_resolve
                   (constructed env container promiseContainer chunks)))), st')
    | (Throw e, st') => (Normal (promise (Promise_resolve e)), st')
    end.
Proof.
  intros Hg. unfold applyPromise. cbn [truthy iterate hd tl].
  unfold Promise_all. rewrite Hg. cbn [Promise_then].
  rewrite bind_run. unfold react. cbn [array iterate default hd tl].
  rewrite bind_run. rewrite forEach_inject_in_order.
  destruct (inject_in_order _ _ _ _) as [[[]|e] st'] eqn:Hrun.
  - rewrite construct_run by (by eapply inject_in_order_objects).
    rewrite bind_run.
    destruct (Promise_resolve _) as [v|r|]; cbn [Promise_catch caught]; try done.
  - rewrite bind_run. cbn [Promise_catch]. unfold react, ret. done.
Qed.

Lemma applyPromise_not_fulfilled (container : value) (containerPromise : value)
    (chunksPromise : list value) (p : gmap string value) (st : state) :
  (∀ values, gather (containerPromise :: chunksPromise) ≠ AllFulfilled values) →
  applyPromise env injectReducer injectSaga container
    (VObject (Array (containerPromise :: chunksPromise)) p) st
  = (Normal (promise (caught (Promise_all env (containerPromise :: chunksPromise)))), st).
Proof.
  intros Hg. unfold applyPromise. cbn [truthy iterate hd tl].
  unfold Promise_all.
  destruct (gather _) as [values|e|]; [by destruct (Hg values)|done..].
Qed.

(** The route of a configuration that brings no [Component] of its own
    loads lazily. *)
Lemma routeProvider_run (applyPromise' : (value → value → M unit) →
      (value → value → value → M unit) → value → value → M value)
    (config : value) (st : state) :
  is_nullish config = false →
  props_of config !! "Component" = None →
  ∃ route,
    routeProvider env injectReducer injectSaga applyPromise' config st = (Normal route, st)
    ∧ Component route
      = if typeof_function (get_prop config "container") then
          applyPromise' injectReducer injectSaga (get_prop config "container")
            (get_prop config "require")
        else
          match get_prop config "container" with
          | VObject (Promise s) _ =>
              (p <- Promise_then s (λ defaultContainer, read defaultContainer "default");;
               p' <- Promise_catch p (λ error, ret error);;
               ret (promise p'))
          | _ => throw TypeError
          end.
Proof.
  intros Hn Hown. unfold routeProvider. rewrite bind_run. unfold read. rewrite Hn.
  unfold ret. eexists. split; [done|]. cbn [Component].
  by rewrite rest_props_Component, Hown.
Qed.

Lemma has_container_not_nullish (config : value) :
  isObject (get_prop config "container") = true → is_nullish config = false.
Proof.
  intros Hc. destruct (is_nullish config) eqn:Hn; [|done].
  by rewrite get_prop_nullish in Hc.
Qed.


(** C10, amended.  A route whose container is a function and whose
    [require] is absent ([undefined] or [null]), from a configuration that
    brings no [Component] of its own: [Component()] throws a [TypeError]
    synchronously, from the array pattern applied to [require || {}]; it
    returns no promise, and nothing is injected. *)
Theorem Component_without_require (config : value) (st : state) :
  typeof_function (get_prop config "container") = true →
  is_nullish (get_prop config "require") = true →
  props_of config !! "Component" = None →
  ∃ route,
    routeProvider env injectReducer injectSaga (applyPromise env) config st
    = (Normal route, st)
    ∧ Component route st = (Throw TypeError, st).
Proof.
  intros Hc Hr Hown.
  assert (is_nullish config = false) as Hn.
  { apply has_container_not_nullish. by destruct (get_prop config "container"). }
  destruct (routeProvider_run (applyPromise env) config st Hn Hown)
    as (route & Hroute & HC).
  exists route. split; [done|]. rewrite HC, Hc.
  unfold applyPromise. by destruct (get_prop config "require").
Qed.

End Route.


(** C10 fails as stated: a [Component] of the configuration replaces the
    lazy one, and [Component()] returns what the caller's function returns
    instead of throwing. *)
Lemma Component_without_require_replaced :
  let env := Sample.production_build in
  let run config :=
    (route <- routeProvider env (injectReducerFactory env true Sample.createReducer)
                (injectSagaFactory env true) (applyPromise env) config;;
     Component route) Sample.fresh in
  typeof_function (get_prop (More.with_Component Sample.bare_route) "container") = true
  ∧ get_prop (More.with_Component Sample.bare_route) "require" = VUndefined
  ∧ run (More.with_Component Sample.bare_route) = (Normal (array []), Sample.fresh).
Proof. vm_compute. repeat split; reflexivity. Qed.

Section Dependencies.

Context (env : Env).





End Dependencies.


(** ** The theorems at the sample data *)



Lemma injectSaga_after_eject_witness :
  ∃ st1,
    ejectSagaFactory Sample.production_build true (VString "users")
      (Sample.running ONCE_TILL_UNMOUNT) = (Normal tt, st1)
    ∧ injectSagaFactory Sample.production_build true (VString "users")
        (Sample.descriptor Sample.watchUsers ONCE_TILL_UNMOUNT) VUndefined st1
      = (Normal tt, st1).
Proof.
  destruct (injectSaga_after_eject Sample.production_build true "users"
              (object {[ "saga" := Sample.watchUsers; "mode" := ONCE_TILL_UNMOUNT;
                         "task" := task 0 ]})
              (Sample.descriptor Sample.watchUsers ONCE_TILL_UNMOUNT) VUndefined 0 ∅
              (Sample.running ONCE_TILL_UNMOUNT))
    as (st1 & H1 & _ & _ & H4).
  - reflexivity.
  - vm_compute. reflexivity.
  - discriminate.
  - vm_compute. reflexivity.
  - reflexivity.
  - reflexivity.
  - reflexivity.
  - reflexivity.
  - exists st1. split; [exact H1|exact H4].
Defined.

Lemma ejectSaga_cancels_witness :
  ∃ st',
    eject_times Sample.development_build true (VString "users") 2
      (Sample.running RESTART_ON_REMOUNT) = (Normal tt, st')
    ∧ trace st' = [RunSaga Sample.watchUsers VUndefined 0; Cancel 0; Cancel 0].
Proof.
  destruct (ejectSaga_cancels Sample.development_build true "users"
              (object {[ "saga" := Sample.watchUsers; "mode" := RESTART_ON_REMOUNT;
                         "task" := task 0 ]}) 0 ∅ 1
              (Sample.running RESTART_ON_REMOUNT))
    as (st' & H1 & H2 & _).
  - vm_compute. reflexivity.
  - discriminate.
  - vm_compute. reflexivity.
  - reflexivity.
  - reflexivity.
  - reflexivity.
  - exists st'. split; [exact H1|exact H2].
Defined.

Lemma ejectSaga_keeps_daemon_witness :
  ejectSagaFactory Sample.production_build true (VString "users") (Sample.running DAEMON)
  = (Normal tt, Sample.running DAEMON).
Proof.
  apply (ejectSaga_keeps_daemon Sample.production_build true "users"
           (object {[ "saga" := Sample.watchUsers; "mode" := DAEMON; "task" := task 0 ]})).
  - vm_compute. reflexivity.
  - discriminate.
  - vm_compute. reflexivity.
  - reflexivity.
Defined.

Lemma injectSaga_hot_reload_witness :
  ∃ st',
    injectSagaFactory Sample.development_build true (VString "users")
      (Sample.descriptor Sample.watchUsers' DAEMON) VUndefined (Sample.running DAEMON)
    = (Normal tt, st')
    ∧ trace st' = [RunSaga Sample.watchUsers VUndefined 0; Cancel 0;
                   RunSaga Sample.watchUsers' VUndefined 1].
Proof.
  destruct (injectSaga_hot_reload Sample.development_build true "users"
              (Sample.descriptor Sample.watchUsers' DAEMON) VUndefined
              (Sample.running DAEMON)) as (H & _).
  - vm_compute. reflexivity.
  - discriminate.
  - reflexivity.
  - destruct (H eq_refl
                (object {[ "saga" := Sample.watchUsers; "mode" := DAEMON; "task" := task 0 ]})
                0 ∅) as (st' & H1 & H2 & _).
    + vm_compute. reflexivity.
    + reflexivity.
    + reflexivity.
    + exists st'. split; [exact H1|exact H2].
Defined.

Lemma validation_before_mutation_witness :
  ∃ format,
    sagaInjectors Sample.production_build Sample.no_runSaga
    = (Throw (ContractViolation format), Sample.no_runSaga).
Proof.
  destruct (validation_before_mutation Sample.production_build Sample.no_runSaga)
    as (Hmissing & Hfactories & _).
  assert ("runSaga" ∈ store_shape.*1) as Hin.
  { apply list_elem_of_In. cbn. tauto. }
  destruct (Hfactories (Hmissing "runSaga" Hin eq_refl) Sample.createReducer)
    as (format & _ & H & _).
  exists format. exact H.
Defined.



Lemma Component_without_require_witness :
  ∃ route,
    routeProvider Sample.production_build
      (injectReducerFactory Sample.production_build true Sample.createReducer)
      (injectSagaFactory Sample.production_build true)
      (applyPromise Sample.production_build) Sample.bare_route Sample.fresh
    = (Normal route, Sample.fresh)
    ∧ Component route Sample.fresh = (Throw TypeError, Sample.fresh).
Proof.
  apply (Component_without_require Sample.production_build
           (injectReducerFactory Sample.production_build true Sample.createReducer)
           (injectSagaFactory Sample.production_build true) Sample.bare_route Sample.fresh).
  - reflexivity.
  - reflexivity.
  - reflexivity.
Defined.

(** * Further properties of the injectors *)

(** ** The store check *)

Lemma valid_store_conform (st : state) :
  valid_store st ↔ members_conform (store st) = true.
Proof.
  unfold valid_store, conformsTo, members_conform, store_shape.
  destruct (is_nullish (store st)) eqn:Hn.
  { rewrite (get_prop_nullish _ "dispatch") by done. by split. }
  cbn [forallb]. rewrite andb_true_r, !andb_true_iff.
  assert (∀ key predicate, predicate VUndefined = false →
    negb ((is_undefined (get_prop (store st) key) && negb (has_prop (store st) key))
          || negb (predicate (get_prop (store st) key))) = predicate (get_prop (store st) key))
    as Hone.
  { intros key predicate Hu. destruct (get_prop (store st) key) eqn:Hg;
      cbn [is_undefined andb orb]; rewrite ?negb_involutive; try done.
    rewrite Hu. by rewrite orb_true_r. }
  rewrite !Hone by done. tauto.
Qed.

(** [checkStore] passes exactly the stores whose five operations are
    functions and whose two mappings are objects; on any other store,
    [null] and [undefined] among them, it throws the contract violation and
    leaves the state as it was. *)
Theorem checkStore_accepts (st : state) :
  checkStore st
  = (if members_conform (store st) then Normal tt
     else Throw (ContractViolation
                   "(app/utils...) injectors: Expected a valid redux store"),
     st).
Proof.
  destruct (members_conform (store st)) eqn:Hm.
  - by apply checkStore_valid, valid_store_conform.
  - apply checkStore_invalid. rewrite valid_store_conform. by rewrite Hm.
Qed.

(** ** The reducer injector, further *)

Section ReducerInjectorFurther.

Context (env : Env) (isValid : bool) (createReducer : value).

Lemma valid_key_inv (key : value) :
  isString key && negb (isEmpty key) = true → ∃ k, key = VString k ∧ k ≠ "".
Proof.
  destruct key as [| | | |k|]; try done. cbn [isString isEmpty andb].
  intros Hk. exists k. split; [done|]. intros ->. done.
Qed.

(** A call of [injectReducer] touches nothing but [injectedReducers[key]]
    and the reducer of the store: however it completes, the sagas, the
    reducers under the other keys and the number of [runSaga] and [cancel]
    calls are as before. *)
Theorem injectReducer_frame (key reducer : value) (st : state) :
  valid_store st →
  ∀ c st', injectReducerFactory env isValid createReducer key reducer st = (c, st') →
    injectedSagas st' = injectedSagas st
    ∧ same_reducers_but key st st'
    ∧ calls is_RunSaga (trace st') = calls is_RunSaga (trace st)
    ∧ calls is_Cancel (trace st') = calls is_Cancel (trace st)
    ∧ valid_store st'.
Proof.
  intros Hv c st' Hrun.
  destruct (isString key && negb (isEmpty key) && isFunction reducer) eqn:Hb.
  2:{ destruct (injectReducer_invalid env isValid createReducer key reducer st Hb)
        as [format Hthrow].
      rewrite Hthrow in Hrun. injection Hrun as <- <-. by repeat split. }
  apply andb_true_iff in Hb as [Hkey HR].
  destruct (valid_key_inv key Hkey) as (k & -> & Hk).
  rewrite injectReducer_run in Hrun by done.
  destruct (reducer_at st k reducer).
  { injection Hrun as <- <-. by repeat split. }
  cbv zeta in Hrun. rewrite bind_run in Hrun.
  assert (∀ s, injectedSagas s = injectedSagas (assigned "injectedReducers" k reducer st) →
               same_reducers_but (VString k) (assigned "injectedReducers" k reducer st) s →
               injectedSagas s = injectedSagas st ∧ same_reducers_but (VString k) st s) as Hframe.
  { intros s Hs Hr. split.
    - by rewrite Hs, injectedSagas_assigned_reducers.
    - intros k' Hk'. rewrite Hr by done.
      apply injectedReducers_assigned_other; [done|congruence]. }
  unfold Function_apply in Hrun.
  destruct createReducer as [| | | | |[] ?]; try (injection Hrun as <- <-;
    destruct (Hframe (assigned "injectedReducers" k reducer st)) as [? ?]; try done;
    repeat split; try done; apply valid_store_assigned; auto).
  destruct (call env f _ _) as [rootReducer|e].
  - unfold ret at 1 in Hrun. rewrite store_replaceReducer_valid in Hrun
      by (apply valid_store_assigned; auto).
    injection Hrun as <- <-.
    destruct (Hframe (logged (ReplaceReducer rootReducer)
                        (assigned "injectedReducers" k reducer st))) as [? ?]; try done.
    repeat split; try done.
    + cbn [logged trace assigned]. by rewrite calls_snoc, Nat.add_0_r.
    + cbn [logged trace assigned]. by rewrite calls_snoc, Nat.add_0_r.
    + apply valid_store_logged, valid_store_assigned; auto.
  - injection Hrun as <- <-.
    destruct (Hframe (assigned "injectedReducers" k reducer st)) as [? ?]; try done.
    repeat split; try done. apply valid_store_assigned; auto.
Qed.



End ReducerInjectorFurther.
(** ** The saga injector and ejector, further *)



Section SagaFurther.

Context (env : Env) (isValid : bool).



End SagaFurther.

Section SagaFrames.

Context (env : Env) (isValid : bool).

Lemma same_sagas_but_assigned (k : string) (v : value) (st0 st : state) :
  valid_store st0 → injectedSagas st0 = injectedSagas st →
  same_sagas_but (VString k) st (assigned "injectedSagas" k v st0).
Proof.
  intros Hv Hs k' Hk'. rewrite injectedSagas_assigned_other; [|done|congruence].
  by rewrite Hs.
Qed.

(** A call of [ejectSaga] touches nothing but [injectedSagas[key]] and the
    task of that entry: however it completes, the reducers, the sagas under
    the other keys and the number of [runSaga] and [replaceReducer] calls
    are as before, at most one [cancel] is invoked, and in a non-production
    build the store is not written at all. *)
Theorem ejectSaga_frame (key : value) (st : state) :
  valid_store st →
  ∀ c st', ejectSagaFactory env isValid key st = (c, st') →
    same_reducers st st'
    ∧ same_sagas_but key st st'
    ∧ calls is_RunSaga (trace st') = calls is_RunSaga (trace st)
    ∧ calls is_ReplaceReducer (trace st') = calls is_ReplaceReducer (trace st)
    ∧ calls is_Cancel (trace st') ≤ S (calls is_Cancel (trace st))
    ∧ (production env = false → store st' = store st)
    ∧ valid_store st'.
Proof.
  intros Hv c st' Hrun.
  assert (same_reducers st st ∧ same_sagas_but key st st
          ∧ calls is_RunSaga (trace st) = calls is_RunSaga (trace st)
          ∧ calls is_ReplaceReducer (trace st) = calls is_ReplaceReducer (trace st)
          ∧ calls is_Cancel (trace st) ≤ S (calls is_Cancel (trace st))
          ∧ (production env = false → store st = store st)
          ∧ valid_store st) as Hsame.
  { repeat split; try done. lia. }
  destruct (isString key && negb (isEmpty key)) eqn:Hkey.
  2:{ destruct (ejectSaga_invalid env isValid key st Hkey) as [format Hthrow].
      rewrite Hthrow in Hrun. by injection Hrun as <- <-. }
  destruct (valid_key_inv key Hkey) as (k & -> & Hk).
  rewrite ejectSaga_run in Hrun by done.
  destruct (saga_under st k) as [descriptor|]; [|by injection Hrun as <- <-].
  destruct (is_nullish descriptor); [by injection Hrun as <- <-|].
  destruct (truthy _ && negb _); [|by injection Hrun as <- <-].
  destruct (get_prop descriptor "task") as [| | | | |[] ?];
    try (by injection Hrun as <- <-).
  injection Hrun as <- <-.
  destruct (production env).
  - repeat split.
    + unfold same_reducers. by rewrite injectedReducers_assigned_sagas.
    + by apply same_sagas_but_assigned.
    + cbn [assigned logged trace]. by rewrite calls_snoc, Nat.add_0_r.
    + cbn [assigned logged trace]. by rewrite calls_snoc, Nat.add_0_r.
    + cbn [assigned logged trace]. rewrite calls_snoc. cbn. lia.
    + done.
    + apply valid_store_assigned; auto.
  - repeat split; try done.
    + cbn [logged trace]. by rewrite calls_snoc, Nat.add_0_r.
    + cbn [logged trace]. by rewrite calls_snoc, Nat.add_0_r.
    + cbn [logged trace]. rewrite calls_snoc. cbn. lia.
Qed.

(** A call of [injectSaga] touches nothing but [injectedSagas[key]], the
    task of the entry it replaces and the task it starts: however it
    completes, the reducers and the sagas under the other keys are as
    before, [replaceReducer] is not invoked, and at most one [runSaga] and
    one [cancel] are. *)
Theorem injectSaga_frame (key d args : value) (st : state) :
  valid_store st →
  ∀ c st', injectSagaFactory env isValid key d args st = (c, st') →
    same_reducers st st'
    ∧ same_sagas_but key st st'
    ∧ calls is_ReplaceReducer (trace st') = calls is_ReplaceReducer (trace st)
    ∧ calls is_RunSaga (trace st') ≤ S (calls is_RunSaga (trace st))
    ∧ calls is_Cancel (trace st') ≤ S (calls is_Cancel (trace st))
    ∧ valid_store st'.
Proof.
  intros Hv c st' Hrun.
  assert (same_reducers st st ∧ same_sagas_but key st st
          ∧ calls is_ReplaceReducer (trace st) = calls is_ReplaceReducer (trace st)
          ∧ calls is_RunSaga (trace st) ≤ S (calls is_RunSaga (trace st))
          ∧ calls is_Cancel (trace st) ≤ S (calls is_Cancel (trace st))
          ∧ valid_store st) as Hsame.
  { repeat split; try done; lia. }
  destruct (isString key && negb (isEmpty key)) eqn:Hkey.
  2:{ destruct (injectSaga_invalid env isValid key d args st (or_introl Hkey))
        as (e & Hthrow & _).
      rewrite Hthrow in Hrun. by injection Hrun as <- <-. }
  destruct (valid_descriptor d) eqn:Hd.
  2:{ destruct (injectSaga_invalid env isValid key d args st (or_intror Hd))
        as (e & Hthrow & _).
      rewrite Hthrow in Hrun. by injection Hrun as <- <-. }
  destruct (valid_key_inv key Hkey) as (k & -> & Hk).
  rewrite injectSaga_run in Hrun by done.
  assert (∀ st0, store st0 = store st → next_task st0 = next_task st →
            calls is_ReplaceReducer (trace st0) = calls is_ReplaceReducer (trace st) →
            calls is_RunSaga (trace st0) = calls is_RunSaga (trace st) →
            calls is_Cancel (trace st0) ≤ S (calls is_Cancel (trace st)) →
            same_reducers st (injected k d args st0)
            ∧ same_sagas_but (VString k) st (injected k d args st0)
            ∧ calls is_ReplaceReducer (trace (injected k d args st0))
              = calls is_ReplaceReducer (trace st)
            ∧ calls is_RunSaga (trace (injected k d args st0))
              ≤ S (calls is_RunSaga (trace st))
            ∧ calls is_Cancel (trace (injected k d args st0))
              ≤ S (calls is_Cancel (trace st))
            ∧ valid_store (injected k d args st0)) as Hinj.
  { intros st0 Hst Hn Hrr Hrs Hc.
    assert (injectedSagas st0 = injectedSagas st) as Hs0
      by (unfold injectedSagas; by rewrite Hst).
    assert (injectedReducers st0 = injectedReducers st) as Hr0
      by (unfold injectedReducers; by rewrite Hst).
    assert (valid_store st0) as Hv0 by (unfold valid_store; by rewrite Hst).
    repeat split.
    - unfold same_reducers, injected. by rewrite injectedReducers_assigned_sagas.
    - unfold injected. by apply same_sagas_but_assigned.
    - rewrite trace_injected, calls_snoc. cbn. lia.
    - rewrite trace_injected, calls_snoc. cbn. lia.
    - rewrite trace_injected, calls_snoc. cbn. lia.
    - by apply valid_store_injected. }
  destruct (saga_under st k) as [old|].
  2:{ injection Hrun as <- <-. apply Hinj; try done. lia. }
  destruct (production env || strict_equal _ _).
  { destruct (production env || negb _); [|by injection Hrun as <- <-].
    destruct (restarts _); injection Hrun as <- <-; [|done].
    apply Hinj; try done. lia. }
  destruct (is_nullish old); [by injection Hrun as <- <-|].
  destruct (get_prop old "task") as [| | | | |[] ?]; try (by injection Hrun as <- <-).
  injection Hrun as <- <-. apply Hinj; try done.
  - cbn [logged trace]. by rewrite calls_snoc, Nat.add_0_r.
  - cbn [logged trace]. by rewrite calls_snoc, Nat.add_0_r.
  - cbn [logged trace]. rewrite calls_snoc. cbn. lia.
Qed.



(** In a non-production build, an entry under the key that holds another
    saga, or none, and no task to cancel (the string a production build
    leaves behind, for instance) makes [injectSaga] throw a [TypeError]:
    the saga is not started and the state is as before. *)
Theorem injectSaga_hot_reload_without_task (key : string) (d args old : value)
    (st : state) :
  production env = false → valid_store st → key ≠ "" → valid_descriptor d = true →
  injectedSagas st !! key = Some old →
  strict_equal (get_prop old "saga") (get_prop d "saga") = false →
  is_task (get_prop old "task") = false →
  injectSagaFactory env isValid (VString key) d args st = (Throw TypeError, st).
Proof.
  intros Hp Hv Hk Hd Hl He Ht.
  apply injectSaga_no_task with old; try done. by apply saga_under_own.
Qed.

End SagaFrames.

(** ** Life cycles: injections and ejections in a row *)

Section LifeCycle.

Context (env : Env) (isValid : bool).











End LifeCycle.

(** ** The lazy route, further *)

Section RouteFurther.

Context (env : Env).
Context (injectReducer : value → value → M unit).
Context (injectSaga : value → value → value → M unit).

(** A route whose container is missing, or is a primitive value, neither a
    function nor a promise, from a configuration that brings no [Component]
    of its own: [Component()] throws a [TypeError] synchronously and injects
    nothing. *)
Theorem Component_without_container (config : value) (st : state) :
  is_nullish config = false →
  isObject (get_prop config "container") = false →
  props_of config !! "Component" = None →
  ∃ route,
    routeProvider env injectReducer injectSaga (applyPromise env) config st
    = (Normal route, st)
    ∧ Component route st = (Throw TypeError, st).
Proof.
  intros Hn Hc Hown.
  destruct (routeProvider_run env injectReducer injectSaga (applyPromise env) config st
              Hn Hown) as (route & Hroute & HC).
  exists route. split; [done|]. rewrite HC.
  by destruct (get_prop config "container").
Qed.

(** The reasons [gather] collects are those of the promises that reject. *)
Lemma gather_rejected (promises reasons : list value) :
  gather promises = SomeRejected reasons →
  reasons ≠ []
  ∧ ∀ e, e ∈ reasons → ∃ promise, promise ∈ promises ∧ Promise_resolve promise = Rejected e.
Proof.
  revert reasons. induction promises as [|p rest IH]; intros reasons; [done|].
  cbn [gather].
  destruct (Promise_resolve p) as [v|e|] eqn:Hp; destruct (gather rest) as [vs|rs|] eqn:Hrest;
    try done; intros [= <-].
  - destruct (IH rs eq_refl) as [Hne Hin]. split; [done|].
    intros e He. destruct (Hin e He) as (promise & ? & ?).
    exists promise. split; [by apply elem_of_cons; right|done].
  - split; [done|]. intros e' ->%list_elem_of_singleton.
    exists p. split; [by apply elem_of_cons; left|done].
  - destruct (IH rs eq_refl) as [Hne Hin]. split; [done|].
    intros e' [->|He]%elem_of_cons.
    + exists p. split; [by apply elem_of_cons; left|done].
    + destruct (Hin e' He) as (promise & ? & ?).
      exists promise. split; [by apply elem_of_cons; right|done].
  - split; [done|]. intros e' ->%list_elem_of_singleton.
    exists p. split; [by apply elem_of_cons; left|done].
  - destruct (IH rs eq_refl) as [Hne Hin]. split; [done|].
    intros e He. destruct (Hin e He) as (promise & ? & ?).
    exists promise. split; [by apply elem_of_cons; right|done].
Qed.

Lemma gather_some_rejected (promises : list value) (promise e : value) :
  promise ∈ promises → Promise_resolve promise = Rejected e →
  ∃ reasons, gather promises = SomeRejected reasons.
Proof.
  induction promises as [|p rest IH]; [by intros ?%elem_of_nil|].
  intros [->|Hin]%elem_of_cons Hp; cbn [gather].
  - rewrite Hp. destruct (gather rest); by eauto.
  - destruct (IH Hin Hp) as [reasons ->]. destruct (Promise_resolve p); by eauto.
Qed.

(** [Promise.all] rejects as soon as one promise rejects, with the reason
    of one of the promises that reject. *)
Lemma Promise_all_rejects (promises : list value) (promise e : value) :
  promise ∈ promises → Promise_resolve promise = Rejected e →
  ∃ promise' e', Promise_all env promises = Rejected e'
    ∧ promise' ∈ promises ∧ Promise_resolve promise' = Rejected e'.
Proof.
  intros Hin Hp. destruct (gather_some_rejected promises promise e Hin Hp) as [reasons Hg].
  destruct (gather_rejected promises reasons Hg) as [Hne Hreasons].
  unfold Promise_all. rewrite Hg.
  set (e' := nth (earliest env reasons `mod` length reasons) reasons VUndefined).
  destruct (Hreasons e') as (promise' & ? & ?).
  { apply list_elem_of_In, nth_In, Nat.mod_upper_bound. by destruct reasons. }
  by exists promise', e'.
Qed.

(** When one of the promises of [require] rejects, [Component()] returns
    a promise that has [catch] turn into a value the error that
    [Promise.all] rejects with, which is the reason of one of the promises
    that reject; nothing is injected and the container is not constructed.
    The route is one from a configuration that brings no [Component] of its
    own. *)
Theorem Component_dependency_rejected (config containerPromise rejecting reason : value)
    (chunksPromise : list value) (p : gmap string value) (st : state) :
  typeof_function (get_prop config "container") = true →
  get_prop config "require" = VObject (Array (containerPromise :: chunksPromise)) p →
  props_of config !! "Component" = None →
  rejecting ∈ containerPromise :: chunksPromise →
  Promise_resolve rejecting = Rejected reason →
  ∃ route first e,
    routeProvider env injectReducer injectSaga (applyPromise env) config st
    = (Normal route, st)
    ∧ first ∈ containerPromise :: chunksPromise
    ∧ Promise_resolve first = Rejected e
    ∧ Component route st = (Normal (promise (Promise_resolve e)), st)
    ∧ (is_promise e = false →
       Component route st = (Normal (promise (Fulfilled e)), st)).
Proof.
  intros Hc Hr Hown Hin Hrej.
  assert (is_nullish config = false) as Hn.
  { apply has_container_not_nullish. by destruct (get_prop config "container"). }
  destruct (routeProvider_run env injectReducer injectSaga (applyPromise env) config st
              Hn Hown) as (route & Hroute & HC).
  destruct (Promise_all_rejects _ _ _ Hin Hrej) as (first & e & Hall & Hin' & Hp).
  exists route, first, e. split; [done|]. split; [done|]. split; [done|].
  rewrite HC, Hc, Hr.
  rewrite applyPromise_not_fulfilled.
  - rewrite Hall. cbn [caught]. split; [done|]. intros He.
    by rewrite Promise_resolve_plain.
  - intros values Hg. unfold Promise_all in Hall. by rewrite Hg in Hall.
Qed.

(** With an empty [require] array there is no container module:
    [Component()] returns a promise, unlike with [require] absent, and the
    promise resolves to the [TypeError] of reading [default] off
    [undefined]; nothing is injected.  The route is one from a configuration
    that brings no [Component] of its own. *)
Theorem Component_empty_require (config : value) (p : gmap string value) (st : state) :
  typeof_function (get_prop config "container") = true →
  get_prop config "require" = VObject (Array []) p →
  props_of config !! "Component" = None →
  ∃ route,
    routeProvider env injectReducer injectSaga (applyPromise env) config st
    = (Normal route, st)
    ∧ Component route st = (Normal (promise (Fulfilled TypeError)), st).
Proof.
  intros Hc Hr Hown.
  assert (is_nullish config = false) as Hn.
  { apply has_container_not_nullish. by destruct (get_prop config "container"). }
  destruct (routeProvider_run env injectReducer injectSaga (applyPromise env) config st
              Hn Hown) as (route & Hroute & HC).
  exists route. split; [done|]. by rewrite HC, Hc, Hr.
Qed.

Lemma inject_in_order_app (before after : list value) (st : state) :
  inject_in_order injectReducer injectSaga (before ++ after) st
  = match inject_in_order injectReducer injectSaga before st with
    | (Normal _, st1) => inject_in_order injectReducer injectSaga after st1
    | (Throw e, st1) => (Throw e, st1)
    end.
Proof.
  revert st. induction before as [|chunk before IH]; intros st; [done|].
  cbn [app inject_in_order]. rewrite !bind_run.
  destruct (inject_chunk _ _ _ _) as [[[]|e] st1]; [apply IH|done].
Qed.

(** An injection that throws stops the loop: the chunks before it stay
    injected, the chunks after it are not looked at, the container is not
    constructed, and [Component()] resolves to the error thrown.  The route
    is one from a configuration that brings no [Component] of its own. *)
Theorem Component_partial_failure (config containerPromise promiseContainer : value)
    (chunksPromise before after : list value) (failing e : value)
    (p : gmap string value) (st st1 st2 : state) :
  typeof_function (get_prop config "container") = true →
  get_prop config "require" = VObject (Array (containerPromise :: chunksPromise)) p →
  props_of config !! "Component" = None →
  gather (containerPromise :: chunksPromise)
  = AllFulfilled (promiseContainer :: before ++ failing :: after) →
  inject_in_order injectReducer injectSaga before st = (Normal tt, st1) →
  inject_chunk injectReducer injectSaga failing st1 = (Throw e, st2) →
  ∃ route,
    routeProvider env injectReducer injectSaga (applyPromise env) config st
    = (Normal route, st)
    ∧ Component route st = (Normal (promise (Promise_resolve e)), st2)
    ∧ (is_promise e = false →
       Component route st = (Normal (promise (Fulfilled e)), st2)).
Proof.
  intros Hc Hr Hown Hg Hbefore Hfail.
  assert (is_nullish config = false) as Hn.
  { apply has_container_not_nullish. by destruct (get_prop config "container"). }
  destruct (routeProvider_run env injectReducer injectSaga (applyPromise env) config st
              Hn Hown) as (route & Hroute & HC).
  exists route. split; [done|]. rewrite HC, Hc, Hr.
  rewrite (applyPromise_fulfilled _ _ _ _ _ _ _ promiseContainer
             (before ++ failing :: after)) by done.
  rewrite inject_in_order_app, Hbefore. cbn [inject_in_order].
  rewrite bind_run, Hfail. split; [done|]. intros He. by rewrite Promise_resolve_plain.
Qed.

End RouteFurther.

(** ** Calling [Component()] again *)

Section Reinjection.

Context (env : Env) (reducers : value).

Local Abbreviation injectR := (injectReducerFactory env true reducers).
Local Abbreviation injectS := (injectSagaFactory env true).










End Reinjection.

(** ** Keys that name what a mapping inherits *)

Section InheritedKeys.

Context (env : Env) (isValid : bool).

(** A key under which the mapping holds nothing itself but inherits a
    property, as an ordinary object does under [constructor] or [toString],
    counts as taken.  In a production build a saga injected there under
    DAEMON or ONCE_TILL_UNMOUNT is not started and nothing is recorded; in a
    non-production build the hot-reload check finds no task to cancel and
    [injectSaga] throws a [TypeError]; [ejectSaga] does nothing.  In each
    case the state is as before. *)
Theorem inherited_key_is_taken (key : string) (d args inherited : value) (st : state) :
  valid_store st → key ≠ "" → valid_descriptor d = true →
  injectedSagas st !! key = None → saga_under st key = Some inherited →
  (production env = true → restarts (descriptor_mode d) = false →
   injectSagaFactory env isValid (VString key) d args st = (Normal tt, st))
  ∧ (production env = false →
     injectSagaFactory env isValid (VString key) d args st = (Throw TypeError, st))
  ∧ ejectSagaFactory env isValid (VString key) st = (Normal tt, st).
Proof.
  intros Hv Hk Hd Hnone Hl.
  destruct (lookup_prop_cases _ _ _ Hl) as [Hown | [_ (Hn & Hm & Hs & Ht)]].
  { unfold injectedSagas in Hnone. congruence. }
  split; [|split].
  - intros Hp Hr. rewrite injectSaga_run by done. by rewrite Hl, Hp, Hr.
  - intros Hp. apply injectSaga_no_task with inherited; try done.
    + rewrite Hs. pose proof (valid_descriptor_saga d Hd) as Hf.
      by destruct (get_prop d "saga") as [| | | | |[] ?].
    + by rewrite Ht.
  - rewrite ejectSaga_run by done. by rewrite Hl, Hn, Hm.
Qed.

End InheritedKeys.

(** ** The name a chunk is injected under *)

Section ChunkNames.

Context (env : Env) (reducers : value).


End ChunkNames.

(** ** The further properties at the sample data *)

Lemma injectReducer_frame_witness :
  injectedSagas (logged (ReplaceReducer (array [object {[ "users" := Sample.usersReducer ]}]))
                   (assigned "injectedReducers" "users" Sample.usersReducer Sample.fresh))
  = injectedSagas Sample.fresh.
Proof.
  destruct (injectReducer_frame Sample.production_build true Sample.createReducer
              (VString "users") Sample.usersReducer Sample.fresh) with
    (c := @Normal unit tt)
    (st' := logged (ReplaceReducer (array [object {[ "users" := Sample.usersReducer ]}]))
              (assigned "injectedReducers" "users" Sample.usersReducer Sample.fresh))
    as (H & _).
  - vm_compute. reflexivity.
  - vm_compute. reflexivity.
  - exact H.
Defined.





Lemma ejectSaga_frame_witness :
  calls is_Cancel
    (trace (assigned "injectedSagas" "users" (VString "done")
              (logged (Cancel 0) (Sample.running ONCE_TILL_UNMOUNT))))
  ≤ S (calls is_Cancel (trace (Sample.running ONCE_TILL_UNMOUNT))).
Proof.
  destruct (ejectSaga_frame Sample.production_build true (VString "users")
              (Sample.running ONCE_TILL_UNMOUNT)) with
    (c := @Normal unit tt)
    (st' := assigned "injectedSagas" "users" (VString "done")
              (logged (Cancel 0) (Sample.running ONCE_TILL_UNMOUNT)))
    as (_ & _ & _ & _ & H & _).
  - vm_compute. reflexivity.
  - vm_compute. reflexivity.
  - exact H.
Defined.

Lemma injectSaga_frame_witness :
  same_reducers Sample.fresh
    (injected "users" (Sample.descriptor Sample.watchUsers DAEMON) VUndefined Sample.fresh).
Proof.
  destruct (injectSaga_frame Sample.production_build true (VString "users")
              (Sample.descriptor Sample.watchUsers DAEMON) VUndefined Sample.fresh) with
    (c := @Normal unit tt)
    (st' := injected "users" (Sample.descriptor Sample.watchUsers DAEMON) VUndefined
              Sample.fresh)
    as (H & _).
  - vm_compute. reflexivity.
  - vm_compute. reflexivity.
  - exact H.
Defined.


Lemma injectSaga_hot_reload_without_task_witness :
  injectSagaFactory Sample.development_build true (VString "users")
    (Sample.descriptor Sample.watchUsers DAEMON) VUndefined More.ejected
  = (Throw TypeError, More.ejected).
Proof.
  apply (injectSaga_hot_reload_without_task Sample.development_build true "users"
           (Sample.descriptor Sample.watchUsers DAEMON) VUndefined (VString "done")).
  - reflexivity.
  - vm_compute. reflexivity.
  - discriminate.
  - reflexivity.
  - vm_compute. reflexivity.
  - reflexivity.
  - reflexivity.
Defined.





Lemma Component_without_container_witness :
  ∃ route,
    routeProvider Sample.production_build
      (injectReducerFactory Sample.production_build true Sample.createReducer)
      (injectSagaFactory Sample.production_build true)
      (applyPromise Sample.production_build)
      (object {[ "path" := VString "/none" ]}) Sample.fresh
    = (Normal route, Sample.fresh)
    ∧ Component route Sample.fresh = (Throw TypeError, Sample.fresh).
Proof.
  apply (Component_without_container Sample.production_build
           (injectReducerFactory Sample.production_build true Sample.createReducer)
           (injectSagaFactory Sample.production_build true)
           (object {[ "path" := VString "/none" ]}) Sample.fresh).
  - reflexivity.
  - reflexivity.
  - reflexivity.
Defined.

Lemma Component_dependency_rejected_witness :
  ∃ route first e,
    routeProvider Sample.production_build
      (injectReducerFactory Sample.production_build true Sample.createReducer)
      (injectSagaFactory Sample.production_build true)
      (applyPromise Sample.production_build)
      (More.route [promise (Fulfilled More.container_module);
                   promise (Rejected Sample.load_failed)]) Sample.fresh
    = (Normal route, Sample.fresh)
    ∧ first ∈ [promise (Fulfilled More.container_module);
               promise (Rejected Sample.load_failed)]
    ∧ Promise_resolve first = Rejected e
    ∧ Component route Sample.fresh = (Normal (promise (Promise_resolve e)), Sample.fresh).
Proof.
  destruct (Component_dependency_rejected Sample.production_build
              (injectReducerFactory Sample.production_build true Sample.createReducer)
              (injectSagaFactory Sample.production_build true)
              (More.route [promise (Fulfilled More.container_module);
                           promise (Rejected Sample.load_failed)])
              (promise (Fulfilled More.container_module))
              (promise (Rejected Sample.load_failed)) Sample.load_failed
              [promise (Rejected Sample.load_failed)] ∅ Sample.fresh)
    as (route & first & e & H1 & H2 & H3 & H4 & _).
  - reflexivity.
  - reflexivity.
  - reflexivity.
  - apply list_elem_of_In. cbn. tauto.
  - reflexivity.
  - exists route, first, e. split; [exact H1|]. split; [exact H2|].
    split; [exact H3|exact H4].
Defined.

Lemma Component_empty_require_witness :
  ∃ route,
    routeProvider Sample.production_build
      (injectReducerFactory Sample.production_build true Sample.createReducer)
      (injectSagaFactory Sample.production_build true)
      (applyPromise Sample.production_build) (More.route []) Sample.fresh
    = (Normal route, Sample.fresh)
    ∧ Component route Sample.fresh = (Normal (promise (Fulfilled TypeError)), Sample.fresh).
Proof.
  apply (Component_empty_require Sample.production_build
           (injectReducerFactory Sample.production_build true Sample.createReducer)
           (injectSagaFactory Sample.production_build true) (More.route []) ∅ Sample.fresh).
  - reflexivity.
  - reflexivity.
  - reflexivity.
Defined.

Lemma Component_partial_failure_witness :
  ∃ route st2,
    routeProvider Sample.production_build (injectReducerFactory Sample.production_build true Sample.createReducer)
      (injectSagaFactory Sample.production_build true)
      (applyPromise Sample.production_build)
      (More.route [promise (Fulfilled More.container_module);
                   promise (Fulfilled (reducer_chunk "profile" Sample.profileReducer));
                   promise (Fulfilled More.nameless_chunk);
                   promise (Fulfilled More.users_chunk)]) Sample.fresh
    = (Normal route, Sample.fresh)
    ∧ Component route Sample.fresh
      = (Normal (promise (Fulfilled (ContractViolation
           "(app/utils...) injectReducer: Expected `reducer` to be a reducer function"))),
         st2)
    ∧ reducer_under st2 "profile" = Some Sample.profileReducer
    ∧ reducer_under st2 "users" = None.
Proof.
  pose (st1 := logged (ReplaceReducer (array [object {[ "profile" := Sample.profileReducer ]}]))
                 (assigned "injectedReducers" "profile" Sample.profileReducer Sample.fresh)).
  destruct (Component_partial_failure Sample.production_build
              (injectReducerFactory Sample.production_build true Sample.createReducer)
              (injectSagaFactory Sample.production_build true)
              (More.route [promise (Fulfilled More.container_module);
                           promise (Fulfilled (reducer_chunk "profile" Sample.profileReducer));
                           promise (Fulfilled More.nameless_chunk);
                           promise (Fulfilled More.users_chunk)])
              (promise (Fulfilled More.container_module)) More.container_module
              [promise (Fulfilled (reducer_chunk "profile" Sample.profileReducer));
               promise (Fulfilled More.nameless_chunk);
               promise (Fulfilled More.users_chunk)]
              [reducer_chunk "profile" Sample.profileReducer] [More.users_chunk]
              More.nameless_chunk
              (ContractViolation
                 "(app/utils...) injectReducer: Expected `reducer` to be a reducer function")
              ∅ Sample.fresh st1 st1) as (route & H1 & _ & H2).
  - reflexivity.
  - reflexivity.
  - reflexivity.
  - reflexivity.
  - vm_compute. reflexivity.
  - vm_compute. reflexivity.
  - exists route, st1. split; [exact H1|]. split; [exact (H2 eq_refl)|].
    split; vm_compute; reflexivity.
Defined.


Lemma inherited_key_is_taken_witness :
  injectSagaFactory Sample.production_build true (VString "toString")
    (Sample.descriptor Sample.watchUsers DAEMON) VUndefined Sample.fresh
  = (Normal tt, Sample.fresh)
  ∧ ejectSagaFactory Sample.production_build true (VString "toString") Sample.fresh
    = (Normal tt, Sample.fresh).
Proof.
  destruct (inherited_key_is_taken Sample.production_build true "toString"
              (Sample.descriptor Sample.watchUsers DAEMON) VUndefined
              (builtin 908 "toString") Sample.fresh) as (H1 & _ & H3).
  - vm_compute. reflexivity.
  - discriminate.
  - reflexivity.
  - vm_compute. reflexivity.
  - vm_compute. reflexivity.
  - split; [apply H1; reflexivity|exact H3].
Defined.


